(** * TextualMOC: the popup demo and the "find the target region" game

    A shallow embedding of the two front-end scripts of the repository:

    - [PopupDemo]: [AladinGame/aladin_game_d1/js/script.js], which shows a
      popup when the pointer enters the single MOC region;
    - [Game]: the timed game script, with a score, a 30 second countdown
      and a list of regions one of which is the target.

    Both scripts keep their state in module-level variables and in a
    handful of DOM elements.  Here that state is one record per script and
    every function or callback of the script is a function from state to
    state.

    Modelling conventions:
    - a record parsed from JSON is a finite map from property names to
      values, [gmap string jsval]: its own data properties, over
      [Object.prototype]; an object built by the scripts is its own
      properties together with its prototype, and [obj[key] = v] is the
      assignment of the language, which for the key [__proto__] reaches
      the accessor of [Object.prototype];
    - JavaScript numbers that the scripts only count with ([score],
      [timeLeft]) are integers in [Z];
    - sky coordinates are rationals;
    - a region built by the visualisation library is known only through
      its point-in-region test, so a region is its [contains] predicate;
    - [audio.play()] is recorded in a log of the cues requested; the
      asynchronous failure of a playback is not modelled;
    - [setInterval] and [clearInterval] act on the list of the countdown
      intervals that are currently active. *)

From Stdlib Require Import QArith.
From stdpp Require Import gmap strings list fin_maps pretty.

Local Set Warnings "-register-all".
Local Open Scope Z_scope.
Local Open Scope string_scope.
Local Open Scope list_scope.

(** ** JSON values *)

(** What [response.json()] can produce. *)
Inductive jsval : Type :=
  | JNull
  | JBool (b : bool)
  | JNum (n : Z)
  | JStr (s : string)
  | JArr (elems : list jsval)
  | JObj (fields : list (string * jsval)).

(** A record received from the JSON file: property name to value. *)
Abbreviation obj := (gmap string jsval).

(** The prototype of an object built by a script: [Object.prototype] for
    an object literal, and after an assignment to [__proto__] possibly
    [null] or a parsed object or array (whose own prototype is the
    standard one). *)
Inductive prototype : Type :=
  | ObjectPrototype
  | NullPrototype
  | ValuePrototype (v : jsval).

(** An object built by a script: own data properties and prototype. *)
Record jsobj : Type := mkObj { own : obj; proto : prototype }.

(** The object literal [{}]. *)
Definition empty_object : jsobj := mkObj ∅ ObjectPrototype.

(** Whether an assignment to [__proto__] on an object with prototype [p]
    finds the accessor of [Object.prototype]: not below [null], and not
    when a parsed object in between has a data property of that name. *)
Definition inherits_proto_setter (p : prototype) : bool :=
  match p with
  | ObjectPrototype => true
  | NullPrototype => false
  | ValuePrototype (JObj fields) =>
      negb (existsb (λ kv, String.eqb kv.1 "__proto__") fields)
  | ValuePrototype _ => true
  end.

(** The setter of [Object.prototype.__proto__]: an object or [null]
    becomes the prototype, any other value is ignored. *)
Definition set_prototype_of (v : jsval) (o : jsobj) : jsobj :=
  match v with
  | JObj _ | JArr _ => mkObj (own o) (ValuePrototype v)
  | JNull => mkObj (own o) NullPrototype
  | _ => o
  end.

(** [o[key] = v] for a JSON value [v].  Every property the prototypes
    can hold is a writable data property, except [__proto__] of
    [Object.prototype]; so the assignment creates or overwrites an own
    property, except where it reaches that accessor. *)
Definition js_set (key : string) (v : jsval) (o : jsobj) : jsobj :=
  if decide (key = "__proto__") then
    if inherits_proto_setter (proto o) then set_prototype_of v o
    else mkObj (<[key := v]> (own o)) (proto o)
  else mkObj (<[key := v]> (own o)) (proto o).

(** [delete o[key]] removes an own property. *)
Global Instance jsobj_delete : Delete string jsobj :=
  λ key o, mkObj (delete key (own o)) (proto o).

(** The prototype that an object literal has after the assignment of the
    [__proto__] property of a record, if the record has one. *)
Definition proto_of_field (f : option jsval) : prototype :=
  match f with
  | Some v => proto (set_prototype_of v empty_object)
  | None => ObjectPrototype
  end.

(** JavaScript truthiness of a property read: [None] is [undefined]. *)
Definition truthy (v : option jsval) : bool :=
  match v with
  | None => false
  | Some JNull => false
  | Some (JBool b) => b
  | Some (JNum n) => negb (Z.eqb n 0)
  | Some (JStr s) => negb (String.eqb s "")
  | Some (JArr _) => true
  | Some (JObj _) => true
  end.

(** The position delivered by the library's [mouseMove] event. *)
Record Position : Type := { ra : Q; dec : Q }.

(** A region object of the library: [moc.contains(ra, dec)]. *)
Record MOC : Type := { contains : Q -> Q -> bool }.

(** ** The popup demo *)

Module PopupDemo.

Inductive Sound : Type := EnterSound | ExitSound.

Record State : Type := mkState {
  cursorInMOC : bool;
  soundsEnabled : bool;
  mocText : jsval;
  popup_display : string;
  popup_textContent : jsval;
  soundToggle_textContent : string;
  played : list Sound;
  console : list string
}.

Definition set_cursorInMOC (b : bool) (s : State) : State :=
  mkState b (soundsEnabled s) (mocText s) (popup_display s)
    (popup_textContent s) (soundToggle_textContent s) (played s) (console s).

Definition set_soundsEnabled (b : bool) (s : State) : State :=
  mkState (cursorInMOC s) b (mocText s) (popup_display s)
    (popup_textContent s) (soundToggle_textContent s) (played s) (console s).

Definition set_mocText (v : jsval) (s : State) : State :=
  mkState (cursorInMOC s) (soundsEnabled s) v (popup_display s)
    (popup_textContent s) (soundToggle_textContent s) (played s) (console s).

Definition set_popup_display (d : string) (s : State) : State :=
  mkState (cursorInMOC s) (soundsEnabled s) (mocText s) d
    (popup_textContent s) (soundToggle_textContent s) (played s) (console s).

Definition set_popup_textContent (v : jsval) (s : State) : State :=
  mkState (cursorInMOC s) (soundsEnabled s) (mocText s) (popup_display s)
    v (soundToggle_textContent s) (played s) (console s).

Definition set_soundToggle_textContent (t : string) (s : State) : State :=
  mkState (cursorInMOC s) (soundsEnabled s) (mocText s) (popup_display s)
    (popup_textContent s) t (played s) (console s).

Definition play (c : Sound) (s : State) : State :=
  mkState (cursorInMOC s) (soundsEnabled s) (mocText s) (popup_display s)
    (popup_textContent s) (soundToggle_textContent s) (c :: played s)
    (console s).

Definition console_log (msg : string) (s : State) : State :=
  mkState (cursorInMOC s) (soundsEnabled s) (mocText s) (popup_display s)
    (popup_textContent s) (soundToggle_textContent s) (played s)
    (msg :: console s).

(** The module-level initialisers; the popup and the toggle button come
    from the page. *)
Definition initial (display0 : string) (text0 : jsval) (toggle0 : string)
    : State :=
  mkState false false (JStr "") display0 text0 toggle0 [] [].

(** One round of the [for (const key in mocWithText)] loop: the
    accumulator is the object under construction and the script state.
    Every property is visited once; the closed forms proved below show
    that the order of the visits does not matter. *)
Definition processMOCWithText_body (key : string) (v : jsval)
    (acc : jsobj * State) : jsobj * State :=
  let '(mocData, s) := acc in
  if decide (key = "text") then (mocData, set_mocText v s)
  else (js_set key v mocData, s).

Definition processMOCWithText (mocWithText : obj) (s : State)
    : jsobj * State :=
  map_fold processMOCWithText_body (empty_object, s) mocWithText.

Definition toggleSounds (s : State) : State :=
  let s1 := set_soundsEnabled (negb (soundsEnabled s)) s in
  set_soundToggle_textContent
    (if soundsEnabled s1 then "Disable Sounds" else "Enable Sounds") s1.

(** The callback registered with [aladin.on('mouseMove', ...)]. *)
Definition mouseMove (moc : MOC) (pos : option Position) (s : State)
    : State :=
  match pos with
  | None => s
  | Some p =>
      let isInMOC := contains moc (ra p) (dec p) in
      if isInMOC && negb (cursorInMOC s) then
        let s1 := console_log "Cursor entered the MOC region" s in
        let s2 := set_cursorInMOC true s1 in
        let s3 := set_popup_display "block" s2 in
        let s4 := set_popup_textContent (mocText s3) s3 in
        if soundsEnabled s4 then play EnterSound s4 else s4
      else if negb isInMOC && cursorInMOC s then
        let s1 := console_log "Cursor left the MOC region" s in
        let s2 := set_cursorInMOC false s1 in
        let s3 := set_popup_display "none" s2 in
        if soundsEnabled s3 then play ExitSound s3 else s3
      else s
  end.

End PopupDemo.

(** ** The game *)

Module Game.

Inductive Sound : Type := SuccessSound | ErrorSound.

(** The module-level variables, the DOM properties the script writes,
    the cues requested so far (most recent first) and the browser's
    table of active countdown intervals. *)
Record State : Type := mkState {
  cursorInMOC : bool;
  gameStarted : bool;
  score : Z;
  timeLeft : Z;
  timerInterval : option nat;
  popup_textContent : option jsval;
  popup_display : string;
  scoreDisplay_textContent : string;
  timerDisplay_color : string;
  timeElement_textContent : string;
  countdownDisplay_textContent : string;
  countdownDisplay_display : string;
  gameStatusDisplay_textContent : string;
  startGameButton_disabled : bool;
  played : list Sound;
  intervals : list nat;
  next_interval : nat
}.

Definition set_cursorInMOC (x : bool) (s : State) : State :=
  mkState x (gameStarted s) (score s) (timeLeft s) (timerInterval s)
    (popup_textContent s) (popup_display s) (scoreDisplay_textContent s)
    (timerDisplay_color s) (timeElement_textContent s)
    (countdownDisplay_textContent s) (countdownDisplay_display s)
    (gameStatusDisplay_textContent s) (startGameButton_disabled s)
    (played s) (intervals s) (next_interval s).

Definition set_gameStarted (x : bool) (s : State) : State :=
  mkState (cursorInMOC s) x (score s) (timeLeft s) (timerInterval s)
    (popup_textContent s) (popup_display s) (scoreDisplay_textContent s)
    (timerDisplay_color s) (timeElement_textContent s)
    (countdownDisplay_textContent s) (countdownDisplay_display s)
    (gameStatusDisplay_textContent s) (startGameButton_disabled s)
    (played s) (intervals s) (next_interval s).

Definition set_score (x : Z) (s : State) : State :=
  mkState (cursorInMOC s) (gameStarted s) x (timeLeft s)
    (timerInterval s) (popup_textContent s) (popup_display s)
    (scoreDisplay_textContent s) (timerDisplay_color s)
    (timeElement_textContent s) (countdownDisplay_textContent s)
    (countdownDisplay_display s) (gameStatusDisplay_textContent s)
    (startGameButton_disabled s) (played s) (intervals s)
    (next_interval s).

Definition set_timeLeft (x : Z) (s : State) : State :=
  mkState (cursorInMOC s) (gameStarted s) (score s) x (timerInterval s)
    (popup_textContent s) (popup_display s) (scoreDisplay_textContent s)
    (timerDisplay_color s) (timeElement_textContent s)
    (countdownDisplay_textContent s) (countdownDisplay_display s)
    (gameStatusDisplay_textContent s) (startGameButton_disabled s)
    (played s) (intervals s) (next_interval s).

Definition set_timerInterval (x : option nat) (s : State) : State :=
  mkState (cursorInMOC s) (gameStarted s) (score s) (timeLeft s) x
    (popup_textContent s) (popup_display s) (scoreDisplay_textContent s)
    (timerDisplay_color s) (timeElement_textContent s)
    (countdownDisplay_textContent s) (countdownDisplay_display s)
    (gameStatusDisplay_textContent s) (startGameButton_disabled s)
    (played s) (intervals s) (next_interval s).

Definition set_popup_textContent (x : option jsval) (s : State) : State :=
  mkState (cursorInMOC s) (gameStarted s) (score s) (timeLeft s)
    (timerInterval s) x (popup_display s) (scoreDisplay_textContent s)
    (timerDisplay_color s) (timeElement_textContent s)
    (countdownDisplay_textContent s) (countdownDisplay_display s)
    (gameStatusDisplay_textContent s) (startGameButton_disabled s)
    (played s) (intervals s) (next_interval s).

Definition set_popup_display (x : string) (s : State) : State :=
  mkState (cursorInMOC s) (gameStarted s) (score s) (timeLeft s)
    (timerInterval s) (popup_textContent s) x
    (scoreDisplay_textContent s) (timerDisplay_color s)
    (timeElement_textContent s) (countdownDisplay_textContent s)
    (countdownDisplay_display s) (gameStatusDisplay_textContent s)
    (startGameButton_disabled s) (played s) (intervals s)
    (next_interval s).

Definition set_scoreDisplay_textContent (x : string) (s : State) : State :=
  mkState (cursorInMOC s) (gameStarted s) (score s) (timeLeft s)
    (timerInterval s) (popup_textContent s) (popup_display s) x
    (timerDisplay_color s) (timeElement_textContent s)
    (countdownDisplay_textContent s) (countdownDisplay_display s)
    (gameStatusDisplay_textContent s) (startGameButton_disabled s)
    (played s) (intervals s) (next_interval s).

Definition set_timerDisplay_color (x : string) (s : State) : State :=
  mkState (cursorInMOC s) (gameStarted s) (score s) (timeLeft s)
    (timerInterval s) (popup_textContent s) (popup_display s)
    (scoreDisplay_textContent s) x (timeElement_textContent s)
    (countdownDisplay_textContent s) (countdownDisplay_display s)
    (gameStatusDisplay_textContent s) (startGameButton_disabled s)
    (played s) (intervals s) (next_interval s).

Definition set_timeElement_textContent (x : string) (s : State) : State :=
  mkState (cursorInMOC s) (gameStarted s) (score s) (timeLeft s)
    (timerInterval s) (popup_textContent s) (popup_display s)
    (scoreDisplay_textContent s) (timerDisplay_color s) x
    (countdownDisplay_textContent s) (countdownDisplay_display s)
    (gameStatusDisplay_textContent s) (startGameButton_disabled s)
    (played s) (intervals s) (next_interval s).

Definition set_countdownDisplay_textContent (x : string) (s : State) : State :=
  mkState (cursorInMOC s) (gameStarted s) (score s) (timeLeft s)
    (timerInterval s) (popup_textContent s) (popup_display s)
    (scoreDisplay_textContent s) (timerDisplay_color s)
    (timeElement_textContent s) x (countdownDisplay_display s)
    (gameStatusDisplay_textContent s) (startGameButton_disabled s)
    (played s) (intervals s) (next_interval s).

Definition set_countdownDisplay_display (x : string) (s : State) : State :=
  mkState (cursorInMOC s) (gameStarted s) (score s) (timeLeft s)
    (timerInterval s) (popup_textContent s) (popup_display s)
    (scoreDisplay_textContent s) (timerDisplay_color s)
    (timeElement_textContent s) (countdownDisplay_textContent s) x
    (gameStatusDisplay_textContent s) (startGameButton_disabled s)
    (played s) (intervals s) (next_interval s).

Definition set_gameStatusDisplay_textContent (x : string) (s : State) : State :=
  mkState (cursorInMOC s) (gameStarted s) (score s) (timeLeft s)
    (timerInterval s) (popup_textContent s) (popup_display s)
    (scoreDisplay_textContent s) (timerDisplay_color s)
    (timeElement_textContent s) (countdownDisplay_textContent s)
    (countdownDisplay_display s) x (startGameButton_disabled s)
    (played s) (intervals s) (next_interval s).

Definition set_startGameButton_disabled (x : bool) (s : State) : State :=
  mkState (cursorInMOC s) (gameStarted s) (score s) (timeLeft s)
    (timerInterval s) (popup_textContent s) (popup_display s)
    (scoreDisplay_textContent s) (timerDisplay_color s)
    (timeElement_textContent s) (countdownDisplay_textContent s)
    (countdownDisplay_display s) (gameStatusDisplay_textContent s) x
    (played s) (intervals s) (next_interval s).

Definition set_played (x : list Sound) (s : State) : State :=
  mkState (cursorInMOC s) (gameStarted s) (score s) (timeLeft s)
    (timerInterval s) (popup_textContent s) (popup_display s)
    (scoreDisplay_textContent s) (timerDisplay_color s)
    (timeElement_textContent s) (countdownDisplay_textContent s)
    (countdownDisplay_display s) (gameStatusDisplay_textContent s)
    (startGameButton_disabled s) x (intervals s) (next_interval s).

Definition set_intervals (x : list nat) (s : State) : State :=
  mkState (cursorInMOC s) (gameStarted s) (score s) (timeLeft s)
    (timerInterval s) (popup_textContent s) (popup_display s)
    (scoreDisplay_textContent s) (timerDisplay_color s)
    (timeElement_textContent s) (countdownDisplay_textContent s)
    (countdownDisplay_display s) (gameStatusDisplay_textContent s)
    (startGameButton_disabled s) (played s) x (next_interval s).

Definition set_next_interval (x : nat) (s : State) : State :=
  mkState (cursorInMOC s) (gameStarted s) (score s) (timeLeft s)
    (timerInterval s) (popup_textContent s) (popup_display s)
    (scoreDisplay_textContent s) (timerDisplay_color s)
    (timeElement_textContent s) (countdownDisplay_textContent s)
    (countdownDisplay_display s) (gameStatusDisplay_textContent s)
    (startGameButton_disabled s) (played s) (intervals s) x.

(** An entry of [mocList]: [{ moc, text, isTarget }]. *)
Record Item : Type := { moc : MOC; text : option jsval;
                        isTarget : option jsval }.

(** The module-level initialisers, over the page as it was loaded. *)
Definition initial (page : State) : State :=
  set_intervals []
    (set_played []
      (set_timerInterval None
        (set_timeLeft 30
          (set_score 0 (set_gameStarted false (set_cursorInMOC false page)))))).

(** [sound.currentTime = 0; sound.play()].  Both audio elements exist:
    the script sets their volume when it is loaded. *)
Definition play (c : Sound) (s : State) : State :=
  set_played (c :: played s) s.

(** [setInterval(callback, 1000)]: a fresh identifier, now active. *)
Definition setInterval (s : State) : nat * State :=
  let id := next_interval s in
  (id, set_next_interval (S id) (set_intervals (id :: intervals s) s)).

(** [clearInterval(h)]: nothing happens when [h] is [undefined]. *)
Definition clearInterval (h : option nat) (s : State) : State :=
  match h with
  | None => s
  | Some id => set_intervals (filter (λ j, j ≠ id) (intervals s)) s
  end.

(** [endGame(message)]; [None] is a call without argument, which takes
    the default message computed from the score at the call. *)
Definition endGame (message : option string) (s : State) : State :=
  let msg := match message with
             | Some m => m
             | None => "Time's up! Final score: " +:+ pretty (score s)
             end in
  let s1 := clearInterval (timerInterval s) s in
  let s2 := set_gameStarted false s1 in
  let s3 := set_startGameButton_disabled false s2 in
  let s4 := set_gameStatusDisplay_textContent msg s3 in
  set_countdownDisplay_display "none" s4.

(** The callback of the one-second interval. *)
Definition timerCallback (s : State) : State :=
  let s1 := set_timeLeft (timeLeft s - 1) s in
  let s2 := set_timeElement_textContent (pretty (timeLeft s1)) s1 in
  let s3 :=
    if Z.leb (timeLeft s2) 5 then
      set_countdownDisplay_display "block"
        (set_countdownDisplay_textContent (pretty (timeLeft s2))
          (set_timerDisplay_color "" s2))
    else
      set_countdownDisplay_display "none"
        (set_timerDisplay_color "white" s2) in
  if Z.leb (timeLeft s3) 0 then endGame None s3 else s3.

Definition startGame (s : State) : State :=
  if gameStarted s then s
  else
    let s1 := set_gameStarted true s in
    let s2 := set_score 0 s1 in
    let s3 := set_timeLeft 30 s2 in
    let s4 := set_scoreDisplay_textContent
                ("Score: " +:+ pretty (score s3)) s3 in
    let s5 := set_timerDisplay_color "white" s4 in
    let s6 := set_timeElement_textContent (pretty (timeLeft s5)) s5 in
    let s7 := set_countdownDisplay_display "none" s6 in
    let s8 := set_gameStatusDisplay_textContent "Game in progress..." s7 in
    let s9 := set_startGameButton_disabled true s8 in
    let '(id, s10) := setInterval s9 in
    set_timerInterval (Some id) s10.

(** The splitter of the game script builds [mocData] and touches
    nothing else. *)
Definition processMOCWithText_body (key : string) (v : jsval)
    (mocData : jsobj) : jsobj :=
  if decide (key ≠ "text" ∧ key ≠ "isTarget") then js_set key v mocData
  else mocData.

Definition processMOCWithText (mocWithText : obj) : jsobj :=
  map_fold processMOCWithText_body empty_object mocWithText.

(** [mocDataList.map(...)], over the library's region constructor. *)
Definition loadMocList (MOCFromJSON : jsobj -> MOC) (mocDataList : list obj)
    : list Item :=
  map (λ moc_with_text,
         {| moc := MOCFromJSON (processMOCWithText moc_with_text);
            text := moc_with_text !! "text";
            isTarget := moc_with_text !! "isTarget" |})
      mocDataList.

(** The body of [mocList.forEach(item => ...)]; the accumulator is the
    local [found] and the script state. *)
Definition forEach_body (p : Position) (acc : bool * State) (item : Item)
    : bool * State :=
  let '(found, s) := acc in
  let isInMOC := contains (moc item) (ra p) (dec p) in
  if isInMOC then
    let s' :=
      if truthy (isTarget item) && negb (cursorInMOC s) then
        let s1 := set_score (score s + 10) s in
        let s2 := set_scoreDisplay_textContent
                    ("Score: " +:+ pretty (score s1)) s1 in
        let s3 := set_popup_textContent (text item) s2 in
        let s4 := set_popup_display "block" s3 in
        let s5 := play SuccessSound s4 in
        endGame
          (Some "Congratulations! You found the Large Magellanic Cloud!")
          s5
      else if negb (truthy (isTarget item)) && negb (cursorInMOC s) then
        let s1 := set_popup_textContent (text item) s in
        let s2 := set_popup_display "block" s1 in
        play ErrorSound s2
      else s in
    (true, set_cursorInMOC true s')
  else (found, s).

(** The callback registered with [aladin.on('mouseMove', ...)]. *)
Definition mouseMove (mocList : list Item) (pos : option Position)
    (s : State) : State :=
  match pos with
  | None => s
  | Some p =>
      if negb (gameStarted s) then s
      else
        let '(found, s1) := fold_left (forEach_body p) mocList (false, s) in
        if negb found && cursorInMOC s1 then
          set_popup_display "none" (set_cursorInMOC false s1)
        else s1
  end.

(** What the browser delivers to the script: an active countdown
    interval fires, the pointer moves over the viewer, or the start
    button is clicked. *)
Inductive Event : Type :=
  | Tick
  | MouseMove (pos : option Position)
  | ClickStart.

Definition step (mocList : list Item) (s : State) (e : Event) : State :=
  match e with
  | Tick => match intervals s with [] => s | _ :: _ => timerCallback s end
  | MouseMove pos => mouseMove mocList pos s
  | ClickStart => startGame s
  end.

Definition run (mocList : list Item) (s : State) (evs : list Event)
    : State :=
  fold_left (step mocList) evs s.

Definition is_tick (e : Event) : bool :=
  match e with Tick => true | _ => false end.

(** The number of timer events in a run. *)
Definition ticks (evs : list Event) : nat :=
  length (List.filter is_tick evs).

(** A run in which no pointer event ends the session: every pointer
    event leaves [gameStarted] as it found it. *)
Fixpoint no_early_end (mocList : list Item) (s : State) (evs : list Event)
    : Prop :=
  match evs with
  | [] => True
  | e :: evs' =>
      match e with
      | MouseMove _ => gameStarted (step mocList s e) = gameStarted s
      | _ => True
      end
      ∧ no_early_end mocList (step mocList s e) evs'
  end.

End Game.

(** ** Sample data *)

Module Fixtures.

(** A rectangle of the sky, as a stand-in for a region of the library. *)
Definition box (ra0 ra1 dec0 dec1 : Q) : MOC :=
  {| contains := λ r d,
       Qle_bool ra0 r && Qle_bool r ra1 && Qle_bool dec0 d && Qle_bool d dec1 |}.

Definition at_ (r d : Z) : Position := {| ra := inject_Z r; dec := inject_Z d |}.

(** A record as the popup demo receives it. *)
Definition lmc_record : obj :=
  <["text" := JStr "Large Magellanic Cloud"]>
    (<["3" := JArr [JNum 517; JNum 518]]> ∅).

(** A record with a property named [__proto__], as [JSON.parse] makes
    it from a file that spells the key out. *)
Definition proto_record : obj :=
  <["__proto__" := JObj [("a", JNum 1)]]>
    (<["text" := JStr "Large Magellanic Cloud"]>
      (<["3" := JArr [JNum 517; JNum 518]]> ∅)).

Definition popup_page : PopupDemo.State :=
  PopupDemo.initial "" (JStr "") "Enable Sounds".

(** Two overlapping regions: a decoy and the target. *)
Definition decoy : Game.Item :=
  {| Game.moc := box 0 10 0 10;
     Game.text := Some (JStr "Not here, try again");
     Game.isTarget := Some (JBool false) |}.

Definition target : Game.Item :=
  {| Game.moc := box 5 15 0 10;
     Game.text := Some (JStr "Large Magellanic Cloud");
     Game.isTarget := Some (JBool true) |}.

Definition game_page : Game.State :=
  Game.initial
    (Game.mkState false false 0 30 None (Some (JStr "")) "" "Score: 0"
       "" "30" "" "" "" false [] [] 0).

(** The pointer in the decoy only, in both regions, in the target only
    and outside both. *)
Definition in_decoy : Position := at_ 2 5.
Definition in_both : Position := at_ 7 5.
Definition in_target : Position := at_ 12 5.
Definition outside : Position := at_ 40 40.

(** A run of 29 seconds with the pointer wandering over the decoy. *)
Definition quiet_run : list Game.Event :=
  [Game.MouseMove (Some in_decoy); Game.Tick;
   Game.MouseMove (Some outside); Game.ClickStart]
  ++ repeat Game.Tick 28 ++ [Game.MouseMove None].

End Fixtures.

(** ** The popup demo as a page *)

Module PopupSession.

(** The callback of [fetch(...).then(moc_with_text => ...)] up to the
    registration of the handler: the record is split, the region is
    built by the library from the geometric part, and the handler then
    works on that region. *)
Definition loadMOC (MOCFromJSON : jsobj -> MOC) (moc_with_text : obj)
    (s : PopupDemo.State) : MOC * PopupDemo.State :=
  let '(mocData, s') := PopupDemo.processMOCWithText moc_with_text s in
  (MOCFromJSON mocData, s').

(** What the browser delivers once the region is loaded: a pointer event
    of the viewer or a click on the sound button. *)
Inductive Event : Type :=
  | MouseMove (pos : option Position)
  | ClickToggle.

Definition step (moc : MOC) (s : PopupDemo.State) (e : Event)
    : PopupDemo.State :=
  match e with
  | MouseMove pos => PopupDemo.mouseMove moc pos s
  | ClickToggle => PopupDemo.toggleSounds s
  end.

Definition run (moc : MOC) (s : PopupDemo.State) (evs : list Event)
    : PopupDemo.State :=
  fold_left (step moc) evs s.

Definition is_move (e : Event) : bool :=
  match e with MouseMove _ => true | ClickToggle => false end.

End PopupSession.

(** ** The game as a page *)

Module GamePage.

(** The state of the game script together with the position of the
    popup, [popup.style.left] and [popup.style.top], which only the
    [mousemove] listener of the viewer's container writes. *)
Record Page : Type := mkPage {
  script : Game.State;
  popup_left : string;
  popup_top : string
}.

(** An event of the script as before, or a [mousemove] of the container.
    The latter carries the two lengths that the listener makes from the
    event and the bounding rectangle of the container,
    [`${event.clientX - rect.left + 10}px`] and
    [`${event.clientY - rect.top + 10}px`]; the arithmetic on the pixel
    coordinates and its printing are the browser's. *)
Inductive Event : Type :=
  | Script (e : Game.Event)
  | ContainerMouseMove (lft tp : string).

(** The listener registered with
    [aladinContainer.addEventListener('mousemove', ...)]. *)
Definition movePopup (lft tp : string) (pg : Page) : Page :=
  if Game.cursorInMOC (script pg) then mkPage (script pg) lft tp else pg.

Definition step (mocList : list Game.Item) (pg : Page) (e : Event) : Page :=
  match e with
  | Script e' =>
      mkPage (Game.step mocList (script pg) e') (popup_left pg) (popup_top pg)
  | ContainerMouseMove lft tp => movePopup lft tp pg
  end.

Definition run (mocList : list Game.Item) (pg : Page) (evs : list Event)
    : Page :=
  fold_left (step mocList) evs pg.

(** The page when the script is loaded. *)
Definition initial (page : Game.State) (lft tp : string) : Page :=
  mkPage (Game.initial page) lft tp.

Definition is_click (e : Event) : bool :=
  match e with Script Game.ClickStart => true | _ => false end.

Definition is_script (e : Event) : bool :=
  match e with Script _ => true | ContainerMouseMove _ _ => false end.

End GamePage.

(** * The region-text splitter *)

Section Splitter.

Import PopupDemo.

(** The loop of the popup demo, in closed form.  The object returned has
    the properties of the record other than [text] and [__proto__]; its
    prototype is the one that the assignment of the record's [__proto__]
    value installs; and [mocText] is overwritten by the [text] value when
    the record has one. *)
Lemma popup_processMOCWithText_eq (o : obj) (s : State) :
  processMOCWithText o s =
    (mkObj (delete "text" (delete "__proto__" o))
           (proto_of_field (o !! "__proto__")),
     match o !! "text" with Some v => set_mocText v s | None => s end).
Proof.
  unfold processMOCWithText.
  apply (map_fold_weak_ind (λ r m,
    r = (mkObj (delete "text" (delete "__proto__" m))
               (proto_of_field (m !! "__proto__")),
         match m !! "text" with Some v => set_mocText v s | None => s end))).
  - by rewrite !delete_empty, !lookup_empty.
  - intros k v m r Hk ->. unfold processMOCWithText_body.
    destruct (decide (k = "text")) as [->|Hne].
    + rewrite Hk, lookup_insert_eq, lookup_insert_ne by done.
      by rewrite (delete_insert_ne _ "__proto__"), delete_insert_eq.
    + rewrite (lookup_insert_ne _ k "text") by done. f_equal.
      unfold js_set. destruct (decide (k = "__proto__")) as [->|Hnp].
      * rewrite Hk, lookup_insert_eq, delete_insert_eq. cbn.
        by destruct v.
      * rewrite lookup_insert_ne by done. cbn.
        by rewrite !delete_insert_ne.
Qed.

(** The loop of the game script, in closed form. *)
Lemma game_processMOCWithText_eq (o : obj) :
  Game.processMOCWithText o =
    mkObj (delete "isTarget" (delete "text" (delete "__proto__" o)))
          (proto_of_field (o !! "__proto__")).
Proof.
  unfold Game.processMOCWithText.
  apply (map_fold_weak_ind (λ r m,
    r = mkObj (delete "isTarget" (delete "text" (delete "__proto__" m)))
              (proto_of_field (m !! "__proto__")))).
  - by rewrite !delete_empty, lookup_empty.
  - intros k v m r Hk ->. unfold Game.processMOCWithText_body.
    case_decide as Hd.
    + destruct Hd as [Ht Hi]. unfold js_set.
      destruct (decide (k = "__proto__")) as [->|Hnp].
      * rewrite Hk, lookup_insert_eq, delete_insert_eq. cbn.
        by destruct v.
      * rewrite lookup_insert_ne by done. cbn.
        by rewrite !delete_insert_ne.
    + destruct (decide (k = "text")) as [->|Ht].
      * rewrite lookup_insert_ne by done.
        by rewrite (delete_insert_ne _ "__proto__"), delete_insert_eq.
      * destruct (decide (k = "isTarget")) as [->|Hi]; [|naive_solver].
        rewrite lookup_insert_ne by done.
        by rewrite (delete_insert_ne _ "__proto__"),
          (delete_insert_ne _ "text"), delete_insert_eq.
Qed.

End Splitter.

(** C1 fails on the code for a record that has a property named
    [__proto__].  Both splitters mean to store every property other than
    [text] (and [isTarget]) in [mocData], but the assignment
    [mocData[key] = mocWithText[key]] with that key reaches the accessor
    of [Object.prototype]: the property is not copied, and its value
    becomes the prototype of the object returned.  The other properties
    are copied as the claim says. *)
Theorem processMOCWithText_loses_proto_field :
  let o := Fixtures.proto_record in
  let r1 := (PopupDemo.processMOCWithText o Fixtures.popup_page).1 in
  let r2 := Game.processMOCWithText o in
  o !! "__proto__" = Some (JObj [("a", JNum 1)])
  ∧ own r1 !! "__proto__" = None
  ∧ own r2 !! "__proto__" = None
  ∧ proto r1 = ValuePrototype (JObj [("a", JNum 1)])
  ∧ proto r2 = ValuePrototype (JObj [("a", JNum 1)])
  ∧ own r1 !! "3" = o !! "3"
  ∧ own r2 !! "3" = o !! "3".
Proof.
  cbv zeta. rewrite popup_processMOCWithText_eq, game_processMOCWithText_eq.
  cbn [fst own proto]. unfold Fixtures.proto_record.
  rewrite lookup_insert_eq. cbn [proto_of_field set_prototype_of proto].
  split_and!; reflexivity.
Qed.

(** C7, as stated, fails in the popup demo: splitting a record that has
    a [text] property overwrites the module-level [mocText]. *)
Lemma popup_processMOCWithText_writes_mocText :
  let s := Fixtures.popup_page in
  let s' := (PopupDemo.processMOCWithText Fixtures.lmc_record s).2 in
  PopupDemo.mocText s = JStr ""
  ∧ PopupDemo.mocText s' = JStr "Large Magellanic Cloud"
  ∧ s' ≠ s.
Proof.
  cbv zeta. rewrite popup_processMOCWithText_eq. cbn [snd].
  unfold Fixtures.lmc_record. rewrite lookup_insert_eq.
  split; [reflexivity|]. split; [reflexivity|]. discriminate.
Qed.

(** C7, amended.  The splitter is total.  In the popup demo its only
    effect on the script state is the assignment of the record's [text]
    property to [mocText] (no effect at all when the record has none), and
    the record it returns does not depend on the state.  The splitter of
    the game script is a function of its argument alone: it agrees, up to
    the [isTarget] property, with the record returned in the popup demo
    from any state. *)
Theorem processMOCWithText_effects :
  (∀ (o : obj) (s : PopupDemo.State),
     (PopupDemo.processMOCWithText o s).2 =
       match o !! "text" with
       | Some v => PopupDemo.set_mocText v s
       | None => s
       end)
  ∧ (∀ (o : obj) (s s' : PopupDemo.State),
       (PopupDemo.processMOCWithText o s).1 =
       (PopupDemo.processMOCWithText o s').1)
  ∧ (∀ (o : obj) (s : PopupDemo.State),
       Game.processMOCWithText o =
         delete "isTarget" (PopupDemo.processMOCWithText o s).1).
Proof.
  split; [|split].
  - intros o s. by rewrite popup_processMOCWithText_eq.
  - intros o s s'. by rewrite !popup_processMOCWithText_eq.
  - intros o s. by rewrite popup_processMOCWithText_eq, game_processMOCWithText_eq.
Qed.

(** * The pointer handlers *)

(** C9. An event without position leaves the whole state of either
    script as it was: flags, score, popup and the log of cues. *)
Theorem mouseMove_without_position :
  (∀ (moc : MOC) (s : PopupDemo.State), PopupDemo.mouseMove moc None s = s)
  ∧ (∀ (mocList : list Game.Item) (s : Game.State),
       Game.mouseMove mocList None s = s).
Proof. split; reflexivity. Qed.

(** Case analysis on the condition of the conditional in the goal. *)
Ltac case_if :=
  match goal with
  | |- context [if ?b then _ else _] => destruct b eqn:?
  end.

(** Reading a field through the setters. *)
Ltac state_simpl :=
  cbn [
       Game.cursorInMOC Game.gameStarted Game.score Game.timeLeft
       Game.timerInterval Game.popup_textContent Game.popup_display
       Game.scoreDisplay_textContent Game.timerDisplay_color
       Game.timeElement_textContent Game.countdownDisplay_textContent
       Game.countdownDisplay_display
       Game.gameStatusDisplay_textContent
       Game.startGameButton_disabled Game.played Game.intervals
       Game.next_interval Game.set_cursorInMOC Game.set_gameStarted
       Game.set_score Game.set_timeLeft Game.set_timerInterval
       Game.set_popup_textContent Game.set_popup_display
       Game.set_scoreDisplay_textContent Game.set_timerDisplay_color
       Game.set_timeElement_textContent
       Game.set_countdownDisplay_textContent
       Game.set_countdownDisplay_display
       Game.set_gameStatusDisplay_textContent
       Game.set_startGameButton_disabled Game.set_played
       Game.set_intervals Game.set_next_interval Game.play fst snd] in *.

Section GameHandler.

Import Game.

Implicit Types (s : State) (p : Position) (item : Item) (l : list Item).

(** Whether [p] lies in the region of [item]. *)
Definition inside p item : bool := contains (moc item) (ra p) (dec p).

Lemma set_cursorInMOC_id s : cursorInMOC s = true → set_cursorInMOC true s = s.
Proof. destruct s; simpl; intros ->; reflexivity. Qed.

(** Regions that do not contain the pointer are passed over. *)
Lemma forEach_outside p l : ∀ found s,
  Forall (λ item, inside p item = false) l →
  fold_left (forEach_body p) l (found, s) = (found, s).
Proof.
  induction l as [|item l IH]; intros found s Hl; [reflexivity|].
  inversion_clear Hl as [|? ? Hi Hl']. cbn [fold_left].
  unfold forEach_body at 2. unfold inside in Hi. rewrite Hi. by apply IH.
Qed.

(** Once the inside flag is set, the rest of the list changes nothing. *)
Lemma forEach_after_entry p l : ∀ s,
  cursorInMOC s = true →
  fold_left (forEach_body p) l (true, s) = (true, s).
Proof.
  induction l as [|item l IH]; intros s Hc; [reflexivity|].
  cbn [fold_left]. unfold forEach_body at 2. rewrite Hc.
  rewrite !andb_false_r.
  destruct (contains (moc item) (ra p) (dec p)).
  - rewrite set_cursorInMOC_id by done. by apply IH.
  - by apply IH.
Qed.

(** The loop stops acting at the first region that contains the
    pointer. *)
Lemma forEach_first_match p l1 item l2 found s :
  Forall (λ it, inside p it = false) l1 →
  inside p item = true →
  fold_left (forEach_body p) (l1 ++ item :: l2) (found, s) =
  forEach_body p (found, s) item.
Proof.
  intros H1 Hi. rewrite fold_left_app, forEach_outside by done.
  cbn [fold_left]. unfold inside in Hi.
  unfold forEach_body at 2 3. rewrite Hi.
  apply forEach_after_entry. reflexivity.
Qed.

End GameHandler.

Section GameEntry.

Import Game.

Implicit Types (s : State) (p : Position) (item : Item) (l : list Item).

(** With the game running, the handler does what the loop body does at
    the first region that contains the pointer. *)
Lemma mouseMove_first_match l1 item l2 p s :
  gameStarted s = true →
  Forall (λ it, inside p it = false) l1 →
  inside p item = true →
  mouseMove (l1 ++ item :: l2) (Some p) s = (forEach_body p (false, s) item).2.
Proof.
  intros Hg H1 Hi. unfold mouseMove. rewrite Hg. cbn [negb].
  rewrite forEach_first_match by done.
  unfold inside in Hi. unfold forEach_body. rewrite Hi. reflexivity.
Qed.

(** A handler call after the session has ended does nothing. *)
Lemma mouseMove_not_started l pos s :
  gameStarted s = false → mouseMove l pos s = s.
Proof. intros Hg. destruct pos; [|reflexivity]. cbn. by rewrite Hg. Qed.

Lemma mouseMoves_not_started l (ps : list (option Position)) : ∀ s,
  gameStarted s = false →
  fold_left (λ st q, mouseMove l q st) ps s = s.
Proof.
  induction ps as [|q ps IH]; intros s Hg; [reflexivity|].
  cbn [fold_left]. rewrite mouseMove_not_started by done. by apply IH.
Qed.

End GameEntry.

(** C6. When the pointer lies in several regions, the handler acts on the
    first of them in list order only: the state it produces is the state
    it produces from the list made of that one region, whatever regions
    follow it.  Score, popup, cues and the end of the session are
    therefore those of the first containing region. *)
Theorem mouseMove_first_region_wins
    (l1 l2 : list Game.Item) (item : Game.Item) (p : Position)
    (s : Game.State) :
  Forall (λ it, inside p it = false) l1 →
  inside p item = true →
  Game.mouseMove (l1 ++ item :: l2) (Some p) s =
  Game.mouseMove [item] (Some p) s.
Proof.
  intros H1 Hi. destruct (Game.gameStarted s) eqn:Hg.
  - rewrite mouseMove_first_match by done.
    by rewrite (mouseMove_first_match [] item []).
  - by rewrite !mouseMove_not_started.
Qed.

Lemma mouseMove_first_region_wins_witness :
  Game.mouseMove [Fixtures.decoy; Fixtures.target] (Some Fixtures.in_both)
    (Game.startGame Fixtures.game_page) =
  Game.mouseMove [Fixtures.decoy] (Some Fixtures.in_both)
    (Game.startGame Fixtures.game_page).
Proof.
  apply (mouseMove_first_region_wins [] [Fixtures.target] Fixtures.decoy).
  - constructor.
  - reflexivity.
Defined.

(** C2, as stated, fails when a region listed before the target also
    contains the pointer: the decoy is acted on, the score stays and the
    session goes on. *)
Lemma target_behind_decoy_not_scored :
  let mocList := [Fixtures.decoy; Fixtures.target] in
  let s := Game.startGame Fixtures.game_page in
  let s' := Game.mouseMove mocList (Some Fixtures.in_both) s in
  Game.gameStarted s = true ∧ Game.cursorInMOC s = false
  ∧ inside Fixtures.in_both Fixtures.target = true
  ∧ truthy (Game.isTarget Fixtures.target) = true
  ∧ Game.score s' = Game.score s
  ∧ Game.gameStarted s' = true.
Proof. vm_compute. repeat split. Qed.

(** C2, amended.  While the game runs and the inside flag is clear, if the
    first region in list order that contains the pointer is a target, the
    handler adds exactly 10 to the score, shows the region's text, requests
    the success cue once and ends the session: the interval of the
    countdown is cleared, the start button is enabled again and the
    congratulation is displayed.  Whatever pointer events follow, the score
    stays at that value until a new game is started. *)
Theorem target_entry_scores_ten_and_ends
    (l1 l2 : list Game.Item) (item : Game.Item) (p : Position)
    (s : Game.State) :
  Game.gameStarted s = true →
  Game.cursorInMOC s = false →
  Forall (λ it, inside p it = false) l1 →
  inside p item = true →
  truthy (Game.isTarget item) = true →
  let mocList := l1 ++ item :: l2 in
  let s' := Game.mouseMove mocList (Some p) s in
  Game.score s' = Game.score s + 10
  ∧ Game.gameStarted s' = false
  ∧ (∀ id, Game.timerInterval s = Some id → id ∉ Game.intervals s')
  ∧ Game.startGameButton_disabled s' = false
  ∧ Game.gameStatusDisplay_textContent s' =
      "Congratulations! You found the Large Magellanic Cloud!"
  ∧ Game.popup_textContent s' = Game.text item
  ∧ Game.popup_display s' = "block"
  ∧ Game.played s' = Game.SuccessSound :: Game.played s
  ∧ Game.cursorInMOC s' = true
  ∧ (∀ ps : list (option Position),
       Game.score (fold_left (λ st q, Game.mouseMove mocList q st) ps s') =
       Game.score s + 10).
Proof.
  intros Hg Hc H1 Hi Ht mocList s'.
  assert (Hs' : s' = (Game.forEach_body p (false, s) item).2)
    by (by apply mouseMove_first_match).
  clearbody s'. unfold Game.forEach_body in Hs'. unfold inside in Hi.
  rewrite Hi, Ht, Hc in Hs'. cbn in Hs'.
  assert (Hend : Game.gameStarted s' = false) by (by rewrite Hs').
  split_and!; try done;
    try (by rewrite Hs'; unfold Game.endGame, Game.clearInterval; cbn;
         destruct (Game.timerInterval s)).
  - intros id Hid. rewrite Hs'. unfold Game.endGame, Game.clearInterval.
    cbn. rewrite Hid. cbn.
    intros [Hne _]%list_elem_of_filter. by apply Hne.
  - intros ps. rewrite mouseMoves_not_started by done.
    rewrite Hs'. unfold Game.endGame, Game.clearInterval. cbn.
    by destruct (Game.timerInterval s).
Qed.

Lemma target_entry_scores_ten_and_ends_witness :
  Game.score
    (Game.mouseMove [Fixtures.decoy; Fixtures.target]
       (Some Fixtures.in_target) (Game.startGame Fixtures.game_page)) =
  Game.score (Game.startGame Fixtures.game_page) + 10.
Proof.
  apply (target_entry_scores_ten_and_ends [Fixtures.decoy] [] Fixtures.target
           Fixtures.in_target (Game.startGame Fixtures.game_page)).
  - reflexivity.
  - reflexivity.
  - repeat constructor.
  - reflexivity.
  - reflexivity.
Defined.

(** C8, as stated, fails when the target is listed before a decoy that
    also contains the pointer: the target is acted on, the score grows and
    the session ends, although the pointer lies in a region that is not a
    target. *)
Lemma decoy_behind_target_ends_session :
  let mocList := [Fixtures.target; Fixtures.decoy] in
  let s := Game.startGame Fixtures.game_page in
  let s' := Game.mouseMove mocList (Some Fixtures.in_both) s in
  Game.gameStarted s = true ∧ Game.cursorInMOC s = false
  ∧ inside Fixtures.in_both Fixtures.decoy = true
  ∧ truthy (Game.isTarget Fixtures.decoy) = false
  ∧ Game.gameStarted s' = false
  ∧ Game.score s' = Game.score s + 10
  ∧ Game.popup_textContent s' = Game.text Fixtures.target
  ∧ Game.played s' = [Game.SuccessSound].
Proof. vm_compute. repeat split. Qed.

(** C8, amended.  While the game runs and the inside flag is clear, if the
    first region in list order that contains the pointer is not a target,
    the handler shows that region's text in the popup and requests the
    error cue once; the session stays active: [gameStarted] remains true,
    the countdown and its interval are untouched and the score keeps its
    value. *)
Theorem decoy_entry_shows_text_and_continues
    (l1 l2 : list Game.Item) (item : Game.Item) (p : Position)
    (s : Game.State) :
  Game.gameStarted s = true →
  Game.cursorInMOC s = false →
  Forall (λ it, inside p it = false) l1 →
  inside p item = true →
  truthy (Game.isTarget item) = false →
  let s' := Game.mouseMove (l1 ++ item :: l2) (Some p) s in
  Game.popup_textContent s' = Game.text item
  ∧ Game.popup_display s' = "block"
  ∧ Game.played s' = Game.ErrorSound :: Game.played s
  ∧ Game.gameStarted s' = true
  ∧ Game.timerInterval s' = Game.timerInterval s
  ∧ Game.intervals s' = Game.intervals s
  ∧ Game.timeLeft s' = Game.timeLeft s
  ∧ Game.score s' = Game.score s
  ∧ Game.cursorInMOC s' = true.
Proof.
  intros Hg Hc H1 Hi Ht s'.
  assert (Hs' : s' = (Game.forEach_body p (false, s) item).2)
    by (by apply mouseMove_first_match).
  clearbody s'. unfold Game.forEach_body in Hs'. unfold inside in Hi.
  rewrite Hi, Ht, Hc in Hs'. cbn in Hs'. subst s'. cbn.
  by split_and!.
Qed.

Lemma decoy_entry_shows_text_and_continues_witness :
  Game.popup_textContent
    (Game.mouseMove [Fixtures.decoy; Fixtures.target]
       (Some Fixtures.in_decoy) (Game.startGame Fixtures.game_page)) =
  Some (JStr "Not here, try again").
Proof.
  apply (decoy_entry_shows_text_and_continues [] [Fixtures.target]
           Fixtures.decoy Fixtures.in_decoy
           (Game.startGame Fixtures.game_page)).
  - reflexivity.
  - reflexivity.
  - constructor.
  - reflexivity.
  - reflexivity.
Defined.

(** C3, as stated, fails in the game: once the target has been found the
    session is over, the handler ignores the pointer, and the popup that
    announced the target stays visible when the pointer leaves all
    regions. *)
Lemma popup_stays_after_game_over :
  let mocList := [Fixtures.decoy; Fixtures.target] in
  let s := Game.run mocList Fixtures.game_page
             [Game.ClickStart; Game.MouseMove (Some Fixtures.in_target)] in
  let s' := Game.mouseMove mocList (Some Fixtures.outside) s in
  Forall (λ it, inside Fixtures.outside it = false) mocList
  ∧ Game.popup_display s = "block"
  ∧ Game.popup_display s' = "block"
  ∧ Game.popup_display s' ≠ "none".
Proof.
  vm_compute. split_and!; try reflexivity; [|discriminate].
  repeat constructor.
Qed.

(** C3, amended.  For a pointer position outside all regions: in the
    popup demo the popup is hidden when the inside flag was set, and keeps
    its display style otherwise; in the game the popup is hidden when the
    game is running and the inside flag was set, and keeps its display
    style otherwise. *)
Theorem mouseMove_outside_popup :
  (∀ (moc : MOC) (p : Position) (s : PopupDemo.State),
     contains moc (ra p) (dec p) = false →
     PopupDemo.popup_display (PopupDemo.mouseMove moc (Some p) s) =
       if PopupDemo.cursorInMOC s then "none" else PopupDemo.popup_display s)
  ∧ (∀ (mocList : list Game.Item) (p : Position) (s : Game.State),
       Forall (λ it, inside p it = false) mocList →
       Game.popup_display (Game.mouseMove mocList (Some p) s) =
         if Game.gameStarted s && Game.cursorInMOC s then "none"
         else Game.popup_display s).
Proof.
  split.
  - intros moc p s Hout. unfold PopupDemo.mouseMove. rewrite Hout. cbn.
    by destruct (PopupDemo.cursorInMOC s), (PopupDemo.soundsEnabled s).
  - intros mocList p s Hout. unfold Game.mouseMove.
    destruct (Game.gameStarted s); [|reflexivity]. cbn [negb andb].
    rewrite forEach_outside by done. cbn [negb andb].
    by destruct (Game.cursorInMOC s).
Qed.

Lemma mouseMove_outside_popup_witness :
  PopupDemo.popup_display
    (PopupDemo.mouseMove (Fixtures.box 0 10 0 10) (Some Fixtures.outside)
       (PopupDemo.mouseMove (Fixtures.box 0 10 0 10)
          (Some Fixtures.in_decoy) Fixtures.popup_page)) = "none"
  ∧ Game.popup_display
      (Game.mouseMove [Fixtures.decoy; Fixtures.target]
         (Some Fixtures.outside)
         (Game.mouseMove [Fixtures.decoy; Fixtures.target]
            (Some Fixtures.in_decoy) (Game.startGame Fixtures.game_page))) =
    "none".
Proof.
  split.
  - apply (proj1 mouseMove_outside_popup (Fixtures.box 0 10 0 10)
             Fixtures.outside).
    reflexivity.
  - apply (proj2 mouseMove_outside_popup [Fixtures.decoy; Fixtures.target]
             Fixtures.outside).
    repeat constructor.
Defined.

(** * The session *)

(** C5, as stated, fails: [startGame] does not assign the inside flag.
    After a game won with the pointer in the target the flag is set, and
    it is still set when the next game starts. *)
Lemma startGame_keeps_cursorInMOC :
  let s := Game.run [Fixtures.decoy; Fixtures.target] Fixtures.game_page
             [Game.ClickStart; Game.MouseMove (Some Fixtures.in_target)] in
  Game.gameStarted s = false
  ∧ Game.cursorInMOC (Game.startGame s) = true.
Proof. vm_compute. split; reflexivity. Qed.

(** C5, amended.  Called while no game is running, [startGame] sets
    [gameStarted] to true, [score] to 0 and [timeLeft] to 30, shows these
    values, disables the start button and starts one countdown interval;
    the inside flag [cursorInMOC] keeps the value it had. *)
Theorem startGame_resets_session (s : Game.State) :
  Game.gameStarted s = false →
  let s' := Game.startGame s in
  Game.gameStarted s' = true
  ∧ Game.score s' = 0
  ∧ Game.timeLeft s' = 30
  ∧ Game.cursorInMOC s' = Game.cursorInMOC s
  ∧ Game.scoreDisplay_textContent s' = "Score: 0"
  ∧ Game.timeElement_textContent s' = "30"
  ∧ Game.startGameButton_disabled s' = true
  ∧ Game.timerInterval s' = Some (Game.next_interval s)
  ∧ Game.intervals s' = Game.next_interval s :: Game.intervals s.
Proof.
  intros Hg. unfold Game.startGame. rewrite Hg. cbn. by split_and!.
Qed.

Lemma startGame_resets_session_witness :
  Game.timeLeft (Game.startGame Fixtures.game_page) = 30.
Proof.
  apply (startGame_resets_session Fixtures.game_page). reflexivity.
Defined.

Section Session.

Import Game.

Implicit Types (s : State) (p : Position) (item : Item) (l : list Item).

(** The countdown interval is active exactly while a game is running, and
    [timerInterval] is then its handle. *)
Definition timer_inv s : Prop :=
  if gameStarted s then ∃ id, timerInterval s = Some id ∧ intervals s = [id]
  else intervals s = [].

Lemma timer_inv_ext s s' :
  gameStarted s' = gameStarted s →
  timerInterval s' = timerInterval s →
  intervals s' = intervals s →
  timer_inv s → timer_inv s'.
Proof. unfold timer_inv. by intros -> -> ->. Qed.

Lemma filter_other_singleton (id : nat) : filter (λ j, j ≠ id) [id] = [].
Proof. rewrite filter_cons_False; [done|]. by intros Hne. Qed.

Lemma endGame_stops message s :
  timer_inv s →
  gameStarted (endGame message s) = false ∧ intervals (endGame message s) = [].
Proof.
  unfold timer_inv, endGame, clearInterval. intros Hinv.
  destruct (gameStarted s).
  - destruct Hinv as (id & -> & Hl). cbn. rewrite Hl.
    by rewrite filter_other_singleton.
  - destruct (timerInterval s); cbn; by rewrite Hinv.
Qed.

Lemma endGame_inv message s : timer_inv s → timer_inv (endGame message s).
Proof.
  intros [Hg Hl]%(endGame_stops message). unfold timer_inv. by rewrite Hg.
Qed.

Lemma timerCallback_inv s : timer_inv s → timer_inv (timerCallback s).
Proof.
  intros Hinv. unfold timerCallback.
  do 2 case_if; try (apply endGame_inv);
    (apply (timer_inv_ext s); [reflexivity..|assumption]).
Qed.

Lemma startGame_inv s : timer_inv s → timer_inv (startGame s).
Proof.
  unfold startGame, timer_inv. destruct (gameStarted s) eqn:Hg.
  - by rewrite Hg.
  - intros Hl. cbn. rewrite Hl. by eexists.
Qed.

Lemma forEach_body_inv p item found s :
  timer_inv s → timer_inv (forEach_body p (found, s) item).2.
Proof.
  intros Hinv. unfold forEach_body.
  destruct (contains (moc item) (ra p) (dec p)); [|done]. cbn [snd].
  destruct (truthy (isTarget item)), (cursorInMOC s); cbn [andb negb].
  1, 3, 4: apply (timer_inv_ext s); [reflexivity..|assumption].
  match goal with
  | |- timer_inv (set_cursorInMOC true (endGame ?m ?x)) =>
      apply (timer_inv_ext (endGame m x)); [cbn; reflexivity..|];
      apply endGame_inv, (timer_inv_ext s); [reflexivity..|assumption]
  end.
Qed.

Lemma forEach_inv p l : ∀ found s,
  timer_inv s → timer_inv (fold_left (forEach_body p) l (found, s)).2.
Proof.
  induction l as [|item l IH]; intros found s Hinv; [done|].
  cbn [fold_left].
  pose proof (forEach_body_inv p item found s Hinv) as Hstep.
  destruct (forEach_body p (found, s) item) as [found' s']. by apply IH.
Qed.

Lemma mouseMove_inv l pos s : timer_inv s → timer_inv (mouseMove l pos s).
Proof.
  intros Hinv. destruct pos as [p|]; [|done]. unfold mouseMove.
  destruct (gameStarted s) eqn:Hg; [|done]. cbn [negb].
  pose proof (forEach_inv p l false s Hinv) as Hloop.
  destruct (fold_left (forEach_body p) l (false, s)) as [found s1].
  cbn [snd] in Hloop.
  destruct (negb found && cursorInMOC s1); [|done].
  by apply (timer_inv_ext s1).
Qed.

Lemma step_inv l s e : timer_inv s → timer_inv (step l s e).
Proof.
  intros Hinv. destruct e as [|pos|]; cbn.
  - destruct (intervals s); [done|by apply timerCallback_inv].
  - by apply mouseMove_inv.
  - by apply startGame_inv.
Qed.

Lemma run_inv l evs : ∀ s, timer_inv s → timer_inv (run l s evs).
Proof.
  unfold run. induction evs as [|e evs IH]; intros s Hinv; [done|].
  cbn [fold_left]. by apply IH, step_inv.
Qed.

Lemma initial_inv page : timer_inv (initial page).
Proof. reflexivity. Qed.

Lemma timer_inv_at_most_one s : timer_inv s → (length (intervals s) ≤ 1)%nat.
Proof.
  unfold timer_inv. destruct (gameStarted s).
  - intros (id & _ & ->). cbn. lia.
  - intros ->. cbn. lia.
Qed.

End Session.

(** C10. A call of [startGame] while a game is running changes nothing:
    it returns the state it was given, so no second interval is created.
    In every state the script reaches from its initial state, whatever the
    page, the regions and the events, at most one countdown interval is
    active. *)
Theorem startGame_reentry_single_interval :
  (∀ s : Game.State, Game.gameStarted s = true → Game.startGame s = s)
  ∧ (∀ (mocList : list Game.Item) (page : Game.State)
       (evs : list Game.Event),
       (length (Game.intervals (Game.run mocList (Game.initial page) evs))
        ≤ 1)%nat).
Proof.
  split.
  - intros s Hg. unfold Game.startGame. by rewrite Hg.
  - intros mocList page evs.
    apply timer_inv_at_most_one, run_inv, initial_inv.
Qed.

Lemma startGame_reentry_single_interval_witness :
  Game.startGame (Game.startGame Fixtures.game_page) =
  Game.startGame Fixtures.game_page.
Proof.
  apply (proj1 startGame_reentry_single_interval
           (Game.startGame Fixtures.game_page)).
  reflexivity.
Defined.

Section Countdown.

Import Game.

Implicit Types (s : State) (p : Position) (item : Item) (l : list Item).

(** What the pointer handler never touches, and what it touches only
    when it ends the session. *)
Definition frame s r : Prop :=
  timeLeft r = timeLeft s
  ∧ (gameStarted r = true →
     gameStarted s = true ∧ intervals r = intervals s
     ∧ timerInterval r = timerInterval s ∧ score r = score s).

Lemma frame_refl s : frame s s.
Proof. by split. Qed.

Lemma frame_trans s r t : frame s r → frame r t → frame s t.
Proof.
  intros [Ht1 H1] [Ht2 H2]. split; [congruence|].
  intros Hg. destruct (H2 Hg) as (Hg' & ? & ? & ?).
  destruct (H1 Hg') as (? & ? & ? & ?). split_and!; congruence.
Qed.

Lemma forEach_body_frame p item found s :
  frame s (forEach_body p (found, s) item).2.
Proof.
  unfold forEach_body.
  destruct (contains (moc item) (ra p) (dec p)); [|apply frame_refl].
  cbn [snd].
  destruct (truthy (isTarget item)), (cursorInMOC s); cbn [andb negb].
  1, 3, 4: split; [reflexivity|intros Hg; by split_and!].
  unfold endGame, clearInterval. cbn.
  destruct (timerInterval s); (split; [reflexivity|discriminate]).
Qed.

Lemma forEach_frame p l : ∀ found s,
  frame s (fold_left (forEach_body p) l (found, s)).2.
Proof.
  induction l as [|item l IH]; intros found s; [apply frame_refl|].
  cbn [fold_left].
  pose proof (forEach_body_frame p item found s) as Hstep.
  destruct (forEach_body p (found, s) item) as [found' s'].
  eapply frame_trans; [exact Hstep|apply IH].
Qed.

Lemma mouseMove_frame l pos s : frame s (mouseMove l pos s).
Proof.
  destruct pos as [p|]; [|apply frame_refl]. unfold mouseMove.
  destruct (gameStarted s); [|apply frame_refl]. cbn [negb].
  pose proof (forEach_frame p l false s) as Hloop.
  destruct (fold_left (forEach_body p) l (false, s)) as [found s1].
  cbn [snd] in Hloop.
  destruct (negb found && cursorInMOC s1); [|exact Hloop].
  eapply frame_trans; [exact Hloop|]. split; [reflexivity|].
  intros Hg. by split_and!.
Qed.

(** A tick with more than one second left only counts down. *)
Lemma timerCallback_running s :
  1 < timeLeft s →
  timeLeft (timerCallback s) = timeLeft s - 1
  ∧ gameStarted (timerCallback s) = gameStarted s
  ∧ intervals (timerCallback s) = intervals s
  ∧ timerInterval (timerCallback s) = timerInterval s
  ∧ score (timerCallback s) = score s.
Proof.
  intros Hlt. unfold timerCallback. do 2 case_if;
    repeat match goal with
           | H : Z.leb _ _ = true |- _ => apply Z.leb_le in H
           | H : Z.leb _ _ = false |- _ => apply Z.leb_gt in H
           end;
    state_simpl; first [lia | by split_and!].
Qed.

(** The tick with one second left reaches zero and ends the session. *)
Lemma timerCallback_last s :
  timeLeft s = 1 → timer_inv s →
  timeLeft (timerCallback s) = 0
  ∧ gameStarted (timerCallback s) = false
  ∧ intervals (timerCallback s) = []
  ∧ startGameButton_disabled (timerCallback s) = false
  ∧ gameStatusDisplay_textContent (timerCallback s) =
      "Time's up! Final score: " +:+ pretty (score s)
  ∧ score (timerCallback s) = score s.
Proof.
  intros Ht Hinv. unfold timerCallback. do 2 case_if;
    repeat match goal with
           | H : Z.leb _ _ = true |- _ => apply Z.leb_le in H
           | H : Z.leb _ _ = false |- _ => apply Z.leb_gt in H
           end;
    state_simpl; try lia.
  match goal with
  | |- context [endGame None ?x] =>
      assert (Hx : timer_inv x)
        by (apply (timer_inv_ext s); [reflexivity..|assumption]);
      destruct (endGame_stops None x Hx) as [Hg Hl]
  end.
  split_and!; [|exact Hg|exact Hl|..];
    unfold endGame, clearInterval; state_simpl;
    destruct (timerInterval s); state_simpl; first [lia | reflexivity].
Qed.

Lemma ticks_app (a b : list Event) : ticks (a ++ b) = (ticks a + ticks b)%nat.
Proof. unfold ticks. by rewrite List.filter_app, length_app. Qed.

Lemma no_early_end_app l (a b : list Event) : ∀ s,
  no_early_end l s (a ++ b) → no_early_end l s a.
Proof.
  induction a as [|e a IH]; intros s; [done|].
  cbn. intros [He Hrest]. split; [done|]. by apply IH.
Qed.

Lemma run_app l s (a b : list Event) : run l s (a ++ b) = run l (run l s a) b.
Proof. unfold run. apply fold_left_app. Qed.

(** While more seconds are left than ticks are delivered, and no pointer
    event ends the session, the run only counts down. *)
Lemma run_countdown l (evs : list Event) : ∀ s,
  gameStarted s = true →
  intervals s ≠ [] →
  no_early_end l s evs →
  Z.of_nat (ticks evs) < timeLeft s →
  gameStarted (run l s evs) = true
  ∧ timeLeft (run l s evs) = timeLeft s - Z.of_nat (ticks evs)
  ∧ intervals (run l s evs) = intervals s
  ∧ timerInterval (run l s evs) = timerInterval s
  ∧ score (run l s evs) = score s.
Proof.
  induction evs as [|e evs IH]; intros s Hg Hi Hne Hlt.
  { cbn. split_and!; try done. lia. }
  destruct Hne as [He Hrest].
  change (run l s (e :: evs)) with (run l (step l s e) evs).
  destruct e as [|pos|].
  - change (ticks (Tick :: evs)) with (S (ticks evs)) in *.
    assert (Hstep : step l s Tick = timerCallback s).
    { cbn. by destruct (intervals s). }
    rewrite Hstep in *.
    destruct (timerCallback_running s) as (Ht & Hg' & Hi' & Hti & Hsc); [lia|].
    destruct (IH (timerCallback s)) as (? & ? & ? & ? & ?);
      [congruence|congruence|done|lia|].
    split_and!; [done|lia|congruence..].
  - change (ticks (MouseMove pos :: evs)) with (ticks evs) in *.
    change (step l s (MouseMove pos)) with (mouseMove l pos s) in *.
    destruct (mouseMove_frame l pos s) as [Ht Hfr].
    destruct Hfr as (_ & Hi' & Hti & Hsc); [congruence|].
    destruct (IH (mouseMove l pos s)) as (? & ? & ? & ? & ?);
      [congruence|congruence|done|lia|].
    split_and!; [done|lia|congruence..].
  - change (ticks (ClickStart :: evs)) with (ticks evs) in *.
    assert (Hstep : step l s ClickStart = s).
    { cbn. unfold startGame. by rewrite Hg. }
    rewrite Hstep in *. by apply IH.
Qed.

End Countdown.

(** The state in which [startGame] leaves an idle script. *)
Lemma startGame_idle (s : Game.State) :
  Game.gameStarted s = false →
  Game.intervals s = [] →
  Game.gameStarted (Game.startGame s) = true
  ∧ Game.timeLeft (Game.startGame s) = 30
  ∧ Game.score (Game.startGame s) = 0
  ∧ Game.intervals (Game.startGame s) = [Game.next_interval s]
  ∧ timer_inv (Game.startGame s).
Proof.
  intros Hg Hi. unfold timer_inv, Game.startGame. rewrite Hg. cbn.
  rewrite Hi. split_and!; try reflexivity. by eexists.
Qed.

(** C4. From the state in which [startGame] leaves an idle script, along
    any run of timer ticks, pointer events and clicks in which no pointer
    event ends the session: [timeLeft] starts at 30; as long as fewer than
    30 ticks have been delivered the game is running, [timeLeft] is 30
    minus the number of ticks and the interval is active, so [endGame] has
    not been called; and the 30th tick brings [timeLeft] to 0 and calls
    [endGame]: the interval is cleared, the game is no longer running, the
    start button is enabled and the time-up message is shown. *)
Theorem countdown_ends_at_tick_30
    (mocList : list Game.Item) (s : Game.State) (evs : list Game.Event) :
  Game.gameStarted s = false →
  Game.intervals s = [] →
  Game.no_early_end mocList (Game.startGame s) evs →
  Game.ticks evs = 29%nat →
  let s0 := Game.startGame s in
  Game.timeLeft s0 = 30
  ∧ (∀ pre : list Game.Event, pre `prefix_of` evs →
       Game.gameStarted (Game.run mocList s0 pre) = true
       ∧ Game.timeLeft (Game.run mocList s0 pre) =
           30 - Z.of_nat (Game.ticks pre)
       ∧ Game.intervals (Game.run mocList s0 pre) = Game.intervals s0)
  ∧ (let s' := Game.run mocList s0 (evs ++ [Game.Tick]) in
     Game.timeLeft s' = 0
     ∧ Game.gameStarted s' = false
     ∧ Game.intervals s' = []
     ∧ Game.startGameButton_disabled s' = false
     ∧ Game.gameStatusDisplay_textContent s' = "Time's up! Final score: 0").
Proof.
  intros Hg Hi Hne Hticks s0.
  destruct (startGame_idle s Hg Hi) as (Hg0 & Ht0 & Hsc0 & Hi0 & Hinv0).
  fold s0 in Hg0, Ht0, Hsc0, Hi0, Hinv0, Hne. clearbody s0.
  assert (Hact : Game.intervals s0 ≠ []) by (by rewrite Hi0).
  split; [exact Ht0|]. split.
  - intros pre [k ->].
    assert (Hle : (Game.ticks pre ≤ 29)%nat) by (rewrite ticks_app in Hticks; lia).
    destruct (run_countdown mocList pre s0) as (? & Htl & ? & _);
      [done|done|by eapply no_early_end_app|lia|].
    rewrite Htl, Ht0. by split_and!.
  - intros s'. subst s'. rewrite run_app.
    destruct (run_countdown mocList evs s0) as (Hg1 & Ht1 & Hi1 & _ & Hsc1);
      [done|done|done|lia|].
    pose proof (run_inv mocList evs s0 Hinv0) as Hinv1.
    set (s1 := Game.run mocList s0 evs) in *.
    assert (Hstep : Game.run mocList s1 [Game.Tick] = Game.timerCallback s1).
    { cbn. destruct (Game.intervals s1); [congruence|reflexivity]. }
    rewrite Hstep.
    destruct (timerCallback_last s1) as (? & ? & ? & ? & Hmsg & _);
      [lia|done|].
    split_and!; try done. by rewrite Hmsg, Hsc1, Hsc0.
Qed.

Lemma countdown_ends_at_tick_30_witness :
  Game.timeLeft
    (Game.run [Fixtures.decoy; Fixtures.target]
       (Game.startGame Fixtures.game_page)
       (Fixtures.quiet_run ++ [Game.Tick])) = 0.
Proof.
  refine (proj1 (proj2 (proj2
    (countdown_ends_at_tick_30 [Fixtures.decoy; Fixtures.target]
       Fixtures.game_page Fixtures.quiet_run _ _ _ _)))).
  - reflexivity.
  - reflexivity.
  - vm_compute. repeat split.
  - reflexivity.
Defined.

(** * Further properties of the splitter and of the loaders *)

(** X1. In the popup demo the split loses nothing but a [__proto__]
    property: when the record has a [text] property, [mocText] holds its
    value after the split, and putting that value back under [text] among
    the own properties of the object returned gives the record that was
    received without its [__proto__] property.  For a record that has no
    [__proto__] property this is the record itself, and the object
    returned is over [Object.prototype]. *)
Theorem popup_split_round_trip (o : obj) (s : PopupDemo.State) (t : jsval) :
  o !! "text" = Some t →
  let r := (PopupDemo.processMOCWithText o s).1 in
  let s' := (PopupDemo.processMOCWithText o s).2 in
  PopupDemo.mocText s' = t
  ∧ <["text" := PopupDemo.mocText s']> (own r) = delete "__proto__" o
  ∧ (o !! "__proto__" = None →
     <["text" := PopupDemo.mocText s']> (own r) = o
     ∧ proto r = ObjectPrototype).
Proof.
  intros Ht. cbv zeta. rewrite popup_processMOCWithText_eq, Ht. cbn.
  assert (Hback : <["text" := t]> (delete "text" (delete "__proto__" o)) =
                  delete "__proto__" o).
  { apply insert_delete_id. by rewrite lookup_delete_ne. }
  split_and!; [reflexivity|exact Hback|].
  intros Hp. rewrite Hback, Hp. by rewrite delete_id.
Qed.

Lemma popup_split_round_trip_witness :
  <["text" := JStr "Large Magellanic Cloud"]>
    (own (PopupDemo.processMOCWithText Fixtures.lmc_record
            Fixtures.popup_page).1)
  = Fixtures.lmc_record.
Proof.
  apply (popup_split_round_trip Fixtures.lmc_record Fixtures.popup_page
           (JStr "Large Magellanic Cloud")); reflexivity.
Defined.

(** X2. A record without the auxiliary properties goes through the
    splitter untouched: a record that has neither a [text] nor a
    [__proto__] property is returned by the popup demo as an object over
    [Object.prototype] with exactly the record's properties, and the
    whole script state, [mocText] included, stays as it was; if it has no
    [isTarget] property either, the game returns the same object. *)
Theorem split_without_text (o : obj) :
  o !! "text" = None →
  o !! "__proto__" = None →
  (∀ s : PopupDemo.State,
     PopupDemo.processMOCWithText o s = (mkObj o ObjectPrototype, s))
  ∧ (o !! "isTarget" = None →
     Game.processMOCWithText o = mkObj o ObjectPrototype).
Proof.
  intros Ht Hp. split.
  - intros s. rewrite popup_processMOCWithText_eq, Ht, Hp. cbn.
    by rewrite (delete_id o "__proto__"), delete_id.
  - intros Hi. rewrite game_processMOCWithText_eq, Hp. cbn.
    by rewrite (delete_id o "__proto__"), (delete_id o "text"), delete_id.
Qed.

Lemma split_without_text_witness :
  Game.processMOCWithText (<["3" := JArr [JNum 517]]> ∅) =
  mkObj (<["3" := JArr [JNum 517]]> ∅) ObjectPrototype.
Proof.
  apply (split_without_text (<["3" := JArr [JNum 517]]> ∅)); reflexivity.
Defined.

(** X3. For a record that has no [__proto__] property, splitting is
    idempotent.  The object returned is then over [Object.prototype], so
    that its own properties are again a record as the splitter receives
    them; splitting that record returns the same object, and in the popup
    demo leaves the script state, [mocText] included, as it is. *)
Theorem split_idempotent (o : obj) :
  o !! "__proto__" = None →
  proto (Game.processMOCWithText o) = ObjectPrototype
  ∧ Game.processMOCWithText (own (Game.processMOCWithText o)) =
      Game.processMOCWithText o
  ∧ (∀ s s' : PopupDemo.State,
       proto (PopupDemo.processMOCWithText o s).1 = ObjectPrototype
       ∧ PopupDemo.processMOCWithText
           (own (PopupDemo.processMOCWithText o s).1) s' =
         ((PopupDemo.processMOCWithText o s).1, s')).
Proof.
  intros Hp. split_and!.
  - by rewrite game_processMOCWithText_eq, Hp.
  - rewrite (game_processMOCWithText_eq o), Hp. cbn [own proto_of_field].
    rewrite (delete_id o "__proto__") by done.
    set (m := delete "isTarget" (delete "text" o)).
    assert (Hmp : m !! "__proto__" = None)
      by (unfold m; by rewrite !lookup_delete_ne).
    rewrite game_processMOCWithText_eq, Hmp. cbn. f_equal.
    rewrite (delete_id m "__proto__") by done.
    rewrite (delete_id m "text").
    + apply delete_id. apply lookup_delete_eq.
    + unfold m. rewrite lookup_delete_ne by done. apply lookup_delete_eq.
  - intros s s'. rewrite (popup_processMOCWithText_eq o), Hp.
    cbn [fst own proto proto_of_field].
    rewrite (delete_id o "__proto__") by done. split; [reflexivity|].
    set (m := delete "text" o).
    assert (Hmp : m !! "__proto__" = None)
      by (unfold m; by rewrite lookup_delete_ne).
    assert (Hmt : m !! "text" = None) by apply lookup_delete_eq.
    rewrite popup_processMOCWithText_eq, Hmp, Hmt. cbn.
    by rewrite (delete_id m "__proto__"), delete_id.
Qed.

Lemma split_idempotent_witness :
  Game.processMOCWithText
    (own (Game.processMOCWithText Fixtures.lmc_record)) =
  Game.processMOCWithText Fixtures.lmc_record.
Proof.
  apply (split_idempotent Fixtures.lmc_record). reflexivity.
Defined.

(** X4. [loadMocList] keeps the order and the number of the records.
    The entry made from a record carries the record's [text] and
    [isTarget] values ([undefined] when absent).  Its region is built by
    the library from the object that has the record's properties other
    than [text], [isTarget] and [__proto__]; the prototype of that object
    is [Object.prototype], unless the record has a [__proto__] property
    that holds an object, an array or [null], which then is the
    prototype. *)
Theorem loadMocList_entries (MOCFromJSON : jsobj → MOC) (records : list obj) :
  length (Game.loadMocList MOCFromJSON records) = length records
  ∧ (∀ (i : nat) (o : obj), records !! i = Some o →
       Game.loadMocList MOCFromJSON records !! i =
         Some {| Game.moc :=
                   MOCFromJSON
                     (mkObj (delete "isTarget"
                               (delete "text" (delete "__proto__" o)))
                            (proto_of_field (o !! "__proto__")));
                 Game.text := o !! "text";
                 Game.isTarget := o !! "isTarget" |}).
Proof.
  unfold Game.loadMocList. split; [apply length_map|].
  induction records as [|r records IH]; intros i o Hi; [done|].
  destruct i as [|i]; cbn in *.
  - injection Hi as ->. by rewrite game_processMOCWithText_eq.
  - by apply IH.
Qed.

Lemma loadMocList_entries_witness :
  Game.text <$>
    (Game.loadMocList (λ _, Fixtures.box 0 1 0 1) [Fixtures.lmc_record] !! 0%nat)
  = Some (Some (JStr "Large Magellanic Cloud")).
Proof.
  rewrite (proj2 (loadMocList_entries (λ _, Fixtures.box 0 1 0 1)
                    [Fixtures.lmc_record]) 0%nat Fixtures.lmc_record);
    reflexivity.
Defined.

(** X22. What either splitter returns, for every record.  The own
    properties of the object returned are exactly the record's properties
    other than [text] (in the game also [isTarget]) and [__proto__], each
    with the value it has in the record.  Its prototype is
    [Object.prototype] when the record has no [__proto__] property or one
    that holds a number, a string or a boolean; it is [null] when that
    property holds [null], and the property's value when it holds an
    object or an array. *)
Theorem split_result (o : obj) (s : PopupDemo.State) :
  (∀ k : string,
     own (PopupDemo.processMOCWithText o s).1 !! k =
       if decide (k = "text" ∨ k = "__proto__") then None else o !! k)
  ∧ (∀ k : string,
       own (Game.processMOCWithText o) !! k =
         if decide (k = "text" ∨ k = "isTarget" ∨ k = "__proto__") then None
         else o !! k)
  ∧ proto (PopupDemo.processMOCWithText o s).1 =
      proto (Game.processMOCWithText o)
  ∧ proto (Game.processMOCWithText o) =
      match o !! "__proto__" with
      | Some (JObj fields) => ValuePrototype (JObj fields)
      | Some (JArr elems) => ValuePrototype (JArr elems)
      | Some JNull => NullPrototype
      | _ => ObjectPrototype
      end.
Proof.
  rewrite popup_processMOCWithText_eq, game_processMOCWithText_eq.
  cbn [fst own proto]. split_and!.
  - intros k. rewrite !lookup_delete.
    destruct (decide (k = "text" ∨ k = "__proto__")) as [[->| ->]|Hn].
    + by rewrite decide_True.
    + by rewrite decide_False, decide_True.
    + rewrite !decide_False; [done|intros <-; tauto|intros <-; tauto].
  - intros k. rewrite !lookup_delete.
    destruct (decide (k = "text" ∨ k = "isTarget" ∨ k = "__proto__"))
      as [[->|[->| ->]]|Hn].
    + by rewrite decide_False, decide_True.
    + by rewrite decide_True.
    + do 2 (rewrite decide_False by done). by rewrite decide_True.
    + rewrite !decide_False;
        [done|intros <-; tauto|intros <-; tauto|intros <-; tauto].
  - reflexivity.
  - by destruct (o !! "__proto__") as [[]|].
Qed.

(** * Further properties of the popup demo *)

Section SoundButton.

Import PopupDemo.

(** The label of the sound button announces the next click. *)
Definition label_ok (s : State) : Prop :=
  soundToggle_textContent s =
    (if soundsEnabled s then "Disable Sounds" else "Enable Sounds").

Definition clicks (evs : list PopupSession.Event) : nat :=
  length (List.filter (λ e, negb (PopupSession.is_move e)) evs).

Lemma mouseMove_sound_button (moc : MOC) (pos : option Position) (s : State) :
  soundsEnabled (mouseMove moc pos s) = soundsEnabled s
  ∧ soundToggle_textContent (mouseMove moc pos s) = soundToggle_textContent s.
Proof.
  destruct pos as [p|]; [|done]. unfold mouseMove.
  destruct s as [c en m d t l pl co]. cbn.
  by destruct (contains moc (ra p) (dec p)), c, en.
Qed.

Lemma step_label_ok (moc : MOC) (s : State) (e : PopupSession.Event) :
  label_ok s ∨ PopupSession.is_move e = false →
  label_ok (PopupSession.step moc s e).
Proof.
  unfold label_ok. destruct e as [pos|]; cbn.
  - intros [Hl|?]; [|done].
    destruct (mouseMove_sound_button moc pos s) as [-> ->]. exact Hl.
  - intros _. destruct s as [c en m d t l pl co]. cbn. by destruct en.
Qed.

Lemma run_sound_button (moc : MOC) (evs : list PopupSession.Event) :
  ∀ s : State,
  soundsEnabled (PopupSession.run moc s evs) =
    xorb (soundsEnabled s) (Nat.odd (clicks evs))
  ∧ (label_ok s ∨ (0 < clicks evs)%nat →
     label_ok (PopupSession.run moc s evs)).
Proof.
  induction evs as [|e evs IH]; intros s.
  { cbn. rewrite xorb_false_r. split; [done|]. intros [?|?]; [done|lia]. }
  change (PopupSession.run moc s (e :: evs))
    with (PopupSession.run moc (PopupSession.step moc s e) evs).
  destruct (IH (PopupSession.step moc s e)) as [Hen Hlab]. split.
  - rewrite Hen. destruct e as [pos|]; cbn.
    + by destruct (mouseMove_sound_button moc pos s) as [-> _].
    + change (clicks (PopupSession.ClickToggle :: evs)) with (S (clicks evs)).
      rewrite Nat.odd_succ, <- Nat.negb_odd.
      fold (clicks evs). generalize (Nat.odd (clicks evs)). intros b.
      destruct s as [c en m d t l pl co]. cbn. by destruct en, b.
  - intros Hpre. apply Hlab. destruct e as [pos|].
    + destruct Hpre as [Hl|Hpos].
      * left. apply step_label_ok. by left.
      * right. exact Hpos.
    + left. apply step_label_ok. by right.
Qed.

End SoundButton.

(** X5. The sound button keeps count: after any sequence of pointer
    events and clicks, sounds are enabled exactly when the number of
    clicks has changed the parity of the initial setting; and as soon as
    the button has been clicked once, its label announces the next click,
    reading "Disable Sounds" exactly while sounds are enabled. *)
Theorem sound_button_follows_clicks (moc : MOC) (s0 : PopupDemo.State)
    (evs : list PopupSession.Event) :
  let s := PopupSession.run moc s0 evs in
  PopupDemo.soundsEnabled s =
    xorb (PopupDemo.soundsEnabled s0) (Nat.odd (clicks evs))
  ∧ ((0 < clicks evs)%nat →
     PopupDemo.soundToggle_textContent s =
       (if PopupDemo.soundsEnabled s then "Disable Sounds"
        else "Enable Sounds")).
Proof.
  intros s. destruct (run_sound_button moc evs s0) as [Hen Hlab].
  split; [exact Hen|]. intros Hpos. apply Hlab. by right.
Qed.

Lemma sound_button_follows_clicks_witness :
  PopupDemo.soundToggle_textContent
    (PopupSession.run (Fixtures.box 0 10 0 10) Fixtures.popup_page
       [PopupSession.ClickToggle;
        PopupSession.MouseMove (Some Fixtures.in_decoy)]) =
  "Disable Sounds".
Proof.
  apply (sound_button_follows_clicks (Fixtures.box 0 10 0 10)
           Fixtures.popup_page
           [PopupSession.ClickToggle;
            PopupSession.MouseMove (Some Fixtures.in_decoy)]).
  vm_compute. lia.
Defined.

Lemma popup_flag_after (moc : MOC) (p : Position) (s : PopupDemo.State) :
  PopupDemo.cursorInMOC (PopupDemo.mouseMove moc (Some p) s) =
  contains moc (ra p) (dec p).
Proof.
  unfold PopupDemo.mouseMove.
  destruct (contains moc (ra p) (dec p)), (PopupDemo.cursorInMOC s) eqn:Hc,
    (PopupDemo.soundsEnabled s) eqn:He; cbn; rewrite ?He; cbn; done.
Qed.

(** X6. After a pointer event with a position, the flag [cursorInMOC]
    says whether that position lies in the region, whatever the flag was
    before. *)
Theorem popup_flag_tracks_region (moc : MOC) (p : Position)
    (s : PopupDemo.State) :
  PopupDemo.cursorInMOC (PopupDemo.mouseMove moc (Some p) s) =
  contains moc (ra p) (dec p).
Proof. apply popup_flag_after. Qed.

(** X7. The popup handler reacts to transitions only: a second event at
    the same position changes nothing, so no cue is repeated and nothing
    is logged twice while the pointer stays on one side of the border. *)
Theorem popup_mouseMove_idempotent (moc : MOC) (pos : option Position)
    (s : PopupDemo.State) :
  PopupDemo.mouseMove moc pos (PopupDemo.mouseMove moc pos s) =
  PopupDemo.mouseMove moc pos s.
Proof.
  destruct pos as [p|]; [|reflexivity].
  pose proof (popup_flag_after moc p s) as Hflag.
  set (s1 := PopupDemo.mouseMove moc (Some p) s) in *. clearbody s1.
  unfold PopupDemo.mouseMove. rewrite Hflag.
  by destruct (contains moc (ra p) (dec p)).
Qed.

Section PopupInvariant.

Import PopupDemo.

(** The popup is shown, with the text [m0], exactly while the flag is
    set; [mocText] stays [m0]. *)
Definition popup_inv (m0 : jsval) (s : State) : Prop :=
  mocText s = m0
  ∧ if cursorInMOC s then popup_display s = "block" ∧ popup_textContent s = m0
    else popup_display s ≠ "block".

Lemma popup_step_inv (moc : MOC) (m0 : jsval) (s : State)
    (e : PopupSession.Event) :
  popup_inv m0 s → popup_inv m0 (PopupSession.step moc s e).
Proof.
  destruct s as [c en m d t l pl co]. unfold popup_inv. cbn.
  intros [-> Hc]. destruct e as [[p|]|]; cbn; [|done|done].
  unfold mouseMove. cbn.
  destruct (contains moc (ra p) (dec p)), c, en; cbn; done.
Qed.

Lemma popup_run_inv (moc : MOC) (m0 : jsval) (evs : list PopupSession.Event) :
  ∀ s, popup_inv m0 s → popup_inv m0 (PopupSession.run moc s evs).
Proof.
  unfold PopupSession.run.
  induction evs as [|e evs IH]; intros s Hinv; [done|].
  cbn [fold_left]. by apply IH, popup_step_inv.
Qed.

Lemma silent_step (moc : MOC) (s : State) (e : PopupSession.Event) :
  PopupSession.is_move e = true → soundsEnabled s = false →
  soundsEnabled (PopupSession.step moc s e) = false
  ∧ played (PopupSession.step moc s e) = played s.
Proof.
  destruct s as [c en m d t l pl co]. cbn. intros He ->.
  destruct e as [[p|]|]; [|done|done]. cbn. unfold mouseMove. cbn.
  by destruct (contains moc (ra p) (dec p)), c.
Qed.

End PopupInvariant.

(** X8. From a state with the flag clear and the popup not shown, and
    through any sequence of pointer events and clicks on the sound
    button: the popup is displayed (style 'block') exactly when
    [cursorInMOC] is true, it then shows the text held by [mocText], and
    [mocText] never changes. *)
Theorem popup_shown_iff_inside (moc : MOC) (s0 : PopupDemo.State)
    (evs : list PopupSession.Event) :
  PopupDemo.cursorInMOC s0 = false →
  PopupDemo.popup_display s0 ≠ "block" →
  let s := PopupSession.run moc s0 evs in
  (PopupDemo.cursorInMOC s = true ↔ PopupDemo.popup_display s = "block")
  ∧ (PopupDemo.cursorInMOC s = true →
     PopupDemo.popup_textContent s = PopupDemo.mocText s0)
  ∧ PopupDemo.mocText s = PopupDemo.mocText s0.
Proof.
  intros Hc Hd s.
  assert (Hinv : popup_inv (PopupDemo.mocText s0) s).
  { apply popup_run_inv. unfold popup_inv. by rewrite Hc. }
  clearbody s. destruct Hinv as [Hm Hinv].
  destruct (PopupDemo.cursorInMOC s); split_and!; try done; tauto.
Qed.

Lemma popup_shown_iff_inside_witness :
  PopupDemo.mocText
    (PopupSession.run (Fixtures.box 0 10 0 10) Fixtures.popup_page
       [PopupSession.MouseMove (Some Fixtures.in_decoy);
        PopupSession.ClickToggle;
        PopupSession.MouseMove (Some Fixtures.outside)]) =
  PopupDemo.mocText Fixtures.popup_page.
Proof.
  apply (popup_shown_iff_inside (Fixtures.box 0 10 0 10) Fixtures.popup_page).
  - reflexivity.
  - discriminate.
Defined.

(** X9. Loading and entering compose: the region handed to the handler
    is the one the library builds from the object returned by the
    splitter (the record's properties other than [text] and [__proto__],
    over the prototype that a [__proto__] property installs), and when the
    pointer first enters it the popup is displayed with the [text] value
    of the record that was loaded. *)
Theorem popup_shows_loaded_text (MOCFromJSON : jsobj → MOC) (o : obj)
    (s : PopupDemo.State) (p : Position) (t : jsval) :
  o !! "text" = Some t →
  PopupDemo.cursorInMOC s = false →
  let moc := (PopupSession.loadMOC MOCFromJSON o s).1 in
  let s1 := (PopupSession.loadMOC MOCFromJSON o s).2 in
  contains moc (ra p) (dec p) = true →
  moc = MOCFromJSON (mkObj (delete "text" (delete "__proto__" o))
                           (proto_of_field (o !! "__proto__")))
  ∧ PopupDemo.popup_textContent (PopupDemo.mouseMove moc (Some p) s1) = t
  ∧ PopupDemo.popup_display (PopupDemo.mouseMove moc (Some p) s1) = "block".
Proof.
  intros Ht Hc. unfold PopupSession.loadMOC.
  rewrite popup_processMOCWithText_eq, Ht. cbn [fst snd].
  intros Hin. split; [reflexivity|].
  unfold PopupDemo.mouseMove. rewrite Hin.
  destruct s as [c en m d tx l pl co]. cbn in *. subst c. cbn.
  by destruct en.
Qed.

Lemma popup_shows_loaded_text_witness :
  PopupDemo.popup_textContent
    (PopupDemo.mouseMove
       (PopupSession.loadMOC (λ _, Fixtures.box 0 10 0 10)
          Fixtures.lmc_record Fixtures.popup_page).1
       (Some Fixtures.in_decoy)
       (PopupSession.loadMOC (λ _, Fixtures.box 0 10 0 10)
          Fixtures.lmc_record Fixtures.popup_page).2) =
  JStr "Large Magellanic Cloud".
Proof.
  apply (popup_shows_loaded_text (λ _, Fixtures.box 0 10 0 10)
           Fixtures.lmc_record Fixtures.popup_page Fixtures.in_decoy
           (JStr "Large Magellanic Cloud")); reflexivity.
Defined.

(** X10. Sounds are opt-in: as long as the sound button has not been
    clicked, so that [soundsEnabled] still has its initial value false, no
    pointer event requests a cue, however often the pointer enters and
    leaves the region. *)
Theorem popup_silent_until_enabled (moc : MOC) (evs : list PopupSession.Event) :
  ∀ s0 : PopupDemo.State,
  PopupDemo.soundsEnabled s0 = false →
  forallb PopupSession.is_move evs = true →
  PopupDemo.played (PopupSession.run moc s0 evs) = PopupDemo.played s0.
Proof.
  unfold PopupSession.run.
  induction evs as [|e evs IH]; intros s0 Hoff Hmv; [reflexivity|].
  cbn in Hmv. apply andb_prop in Hmv as [He Hmv].
  destruct (silent_step moc s0 e He Hoff) as [Hoff' Hpl].
  cbn [fold_left]. rewrite IH by done. exact Hpl.
Qed.

Lemma popup_silent_until_enabled_witness :
  PopupDemo.played
    (PopupSession.run (Fixtures.box 0 10 0 10) Fixtures.popup_page
       [PopupSession.MouseMove (Some Fixtures.in_decoy);
        PopupSession.MouseMove (Some Fixtures.outside)]) =
  PopupDemo.played Fixtures.popup_page.
Proof.
  apply (popup_silent_until_enabled (Fixtures.box 0 10 0 10)); reflexivity.
Defined.

(** * Further properties of the game *)

Section GameInvariants.

Import Game.

Implicit Types (s : State) (p : Position) (item : Item) (l : list Item).

(** The score is 0 while a game runs and 0 or 10 otherwise. *)
Definition score_inv s : Prop :=
  (gameStarted s = true → score s = 0) ∧ (score s = 0 ∨ score s = 10).

(** Inside the loop of the handler a session that has just ended has the
    inside flag set. *)
Definition loop_inv s : Prop :=
  score_inv s ∧ (gameStarted s = false → cursorInMOC s = true).

(** The countdown stays within its 30 seconds and is positive while a
    game runs. *)
Definition time_inv s : Prop :=
  (0 ≤ timeLeft s ≤ 30)%Z ∧ (gameStarted s = true → (1 ≤ timeLeft s)%Z).

Definition session_inv s : Prop := timer_inv s ∧ score_inv s ∧ time_inv s.

Lemma forEach_preserves (P : State → Prop) p :
  (∀ found s item, P s → P (forEach_body p (found, s) item).2) →
  ∀ l found s, P s → P (fold_left (forEach_body p) l (found, s)).2.
Proof.
  intros Hbody. induction l as [|item l IH]; intros found s HP; [done|].
  cbn [fold_left]. pose proof (Hbody found s item HP) as Hstep.
  destruct (forEach_body p (found, s) item) as [found' s']. by apply IH.
Qed.

Lemma forEach_body_loop_inv p found s item :
  loop_inv s → loop_inv (forEach_body p (found, s) item).2.
Proof.
  unfold forEach_body.
  destruct (contains (moc item) (ra p) (dec p)); [|done]. cbn [snd].
  destruct s as [c g sc tl ti pt pd sd tc te ct cd gs bd pl iv ni].
  unfold loop_inv, score_inv. state_simpl.
  intros [[Hrun Hsc] Hend].
  destruct (truthy (isTarget item)), c; cbn [andb negb]; state_simpl.
  1, 3, 4: by split_and!.
  assert (Hg : g = true)
    by (destruct g; [reflexivity|by specialize (Hend eq_refl)]).
  subst g. rewrite (Hrun eq_refl).
  unfold endGame, clearInterval, play. state_simpl.
  destruct ti; state_simpl; (split_and!; [discriminate|by right|reflexivity]).
Qed.

Lemma mouseMove_score_inv l pos s : score_inv s → score_inv (mouseMove l pos s).
Proof.
  intros Hinv. destruct pos as [p|]; [|done]. unfold mouseMove.
  destruct (gameStarted s) eqn:Hg; [|done]. cbn [negb].
  assert (Hloop : loop_inv (fold_left (forEach_body p) l (false, s)).2).
  { apply forEach_preserves; [apply forEach_body_loop_inv|].
    split; [done|]. by rewrite Hg. }
  destruct (fold_left (forEach_body p) l (false, s)) as [found s1].
  cbn [snd] in Hloop. destruct Hloop as [Hsc _].
  by destruct (negb found && cursorInMOC s1).
Qed.

Lemma mouseMove_time_inv l pos s : time_inv s → time_inv (mouseMove l pos s).
Proof.
  intros [Hb Hrun]. destruct (mouseMove_frame l pos s) as [Ht Hfr].
  unfold time_inv. rewrite Ht. split; [done|].
  intros Hg. destruct (Hfr Hg) as [Hg' _]. by apply Hrun.
Qed.

Lemma timerCallback_cases s :
  let t := timeLeft s - 1 in
  timeLeft (timerCallback s) = t
  ∧ score (timerCallback s) = score s
  ∧ gameStarted (timerCallback s) =
      (if Z.leb t 0 then false else gameStarted s)
  ∧ gameStatusDisplay_textContent (timerCallback s) =
      (if Z.leb t 0 then "Time's up! Final score: " +:+ pretty (score s)
       else gameStatusDisplay_textContent s).
Proof.
  cbv zeta. unfold timerCallback. state_simpl.
  destruct (Z.leb (timeLeft s - 1) 5); state_simpl;
    (destruct (Z.leb (timeLeft s - 1) 0); [|by split_and!]);
    unfold endGame, clearInterval; state_simpl;
    destruct (timerInterval s); state_simpl; by split_and!.
Qed.

Lemma timerCallback_session_inv s :
  gameStarted s = true → session_inv s → session_inv (timerCallback s).
Proof.
  intros Hg (Htm & [Hrun Hsc] & [Hb Hpos]).
  destruct (timerCallback_cases s) as (Ht & Hs & Hg' & _).
  split; [by apply timerCallback_inv|]. unfold score_inv, time_inv.
  rewrite Ht, Hs, Hg'. specialize (Hpos Hg).
  destruct (Z.leb_spec (timeLeft s - 1) 0); split_and!; try done; lia.
Qed.

Lemma startGame_session_inv s : session_inv s → session_inv (startGame s).
Proof.
  intros (Htm & Hsc & Hti). split; [by apply startGame_inv|].
  unfold startGame. destruct (gameStarted s); [done|].
  unfold score_inv, time_inv, setInterval. state_simpl.
  split_and!; try done. by left.
Qed.

(** A timer event reaches the callback only while a game runs. *)
Lemma tick_idle l s : timer_inv s → gameStarted s = false → step l s Tick = s.
Proof. unfold timer_inv. intros Hinv Hg. rewrite Hg in Hinv. cbn. by rewrite Hinv. Qed.

Lemma step_session_inv l s e : session_inv s → session_inv (step l s e).
Proof.
  intros Hinv. destruct e as [|pos|]; cbn.
  - destruct (intervals s) eqn:Hi; [done|].
    apply timerCallback_session_inv; [|done].
    destruct Hinv as [Htm _]. unfold timer_inv in Htm.
    destruct (gameStarted s); [done|congruence].
  - destruct Hinv as (? & ? & ?).
    split_and!; [by apply mouseMove_inv|by apply mouseMove_score_inv
                |by apply mouseMove_time_inv].
  - by apply startGame_session_inv.
Qed.

Lemma run_session_inv l evs : ∀ s, session_inv s → session_inv (run l s evs).
Proof.
  unfold run. induction evs as [|e evs IH]; intros s Hinv; [done|].
  cbn [fold_left]. by apply IH, step_session_inv.
Qed.

Lemma initial_session_inv page : session_inv (initial page).
Proof.
  split; [apply initial_inv|]. unfold score_inv, time_inv, initial.
  state_simpl. split_and!; try done; [by left|lia..].
Qed.

End GameInvariants.

(** X11. In every state the game script reaches from its initial
    state, whatever the page, the regions and the events, the score is 0
    or 10, and it is 0 as long as a game is running: a session awards the
    10 points at most once. *)
Theorem score_is_zero_or_ten (mocList : list Game.Item) (page : Game.State)
    (evs : list Game.Event) :
  let s := Game.run mocList (Game.initial page) evs in
  (Game.score s = 0 ∨ Game.score s = 10)
  ∧ (Game.gameStarted s = true → Game.score s = 0).
Proof.
  destruct (run_session_inv mocList evs (Game.initial page)
              (initial_session_inv page)) as (_ & [Hrun Hsc] & _).
  by split.
Qed.

(** X12. In every reachable state the seconds remaining lie between 0
    and 30, and at least one second remains while a game is running: the
    countdown never goes below zero. *)
Theorem timeLeft_within_bounds (mocList : list Game.Item) (page : Game.State)
    (evs : list Game.Event) :
  let s := Game.run mocList (Game.initial page) evs in
  (0 ≤ Game.timeLeft s ≤ 30)%Z
  ∧ (Game.gameStarted s = true → (1 ≤ Game.timeLeft s)%Z).
Proof.
  destruct (run_session_inv mocList evs (Game.initial page)
              (initial_session_inv page)) as (_ & _ & Htime).
  exact Htime.
Qed.

Section GameIdle.

Import Game.

Implicit Types (s : State) (p : Position) (item : Item) (l : list Item).

Definition is_click (e : Event) : bool :=
  match e with ClickStart => true | _ => false end.

Lemma idle_step l s e :
  timer_inv s → gameStarted s = false → is_click e = false → step l s e = s.
Proof.
  intros Hinv Hg He. destruct e as [|pos|]; [by apply tick_idle| |done].
  by apply mouseMove_not_started.
Qed.

Lemma page_step_script l (pg : GamePage.Page) (e : GamePage.Event) :
  GamePage.script (GamePage.step l pg e) =
    match e with
    | GamePage.Script e' => step l (GamePage.script pg) e'
    | GamePage.ContainerMouseMove _ _ => GamePage.script pg
    end.
Proof.
  destruct e as [e'|lft tp]; cbn; [reflexivity|].
  unfold GamePage.movePopup. by destruct (cursorInMOC (GamePage.script pg)).
Qed.

Lemma page_run_inv l (evs : list GamePage.Event) : ∀ pg : GamePage.Page,
  timer_inv (GamePage.script pg) →
  timer_inv (GamePage.script (GamePage.run l pg evs)).
Proof.
  unfold GamePage.run.
  induction evs as [|e evs IH]; intros pg Hinv; [done|].
  cbn [fold_left]. apply IH. rewrite page_step_script.
  destruct e; [by apply step_inv|done].
Qed.

(** With no game running and no click on the start button, the script
    state stays; the page stays as a whole when the inside flag is clear
    or when no [mousemove] of the container is delivered. *)
Lemma idle_page_run l (evs : list GamePage.Event) : ∀ pg : GamePage.Page,
  timer_inv (GamePage.script pg) →
  gameStarted (GamePage.script pg) = false →
  forallb (λ e, negb (GamePage.is_click e)) evs = true →
  GamePage.script (GamePage.run l pg evs) = GamePage.script pg
  ∧ (cursorInMOC (GamePage.script pg) = false → GamePage.run l pg evs = pg)
  ∧ (forallb GamePage.is_script evs = true → GamePage.run l pg evs = pg).
Proof.
  induction evs as [|e evs IH]; intros pg Hinv Hg Hev; [done|].
  cbn in Hev. apply andb_prop in Hev as [He Hev].
  change (GamePage.run l pg (e :: evs))
    with (GamePage.run l (GamePage.step l pg e) evs).
  destruct e as [e'|lft tp].
  - assert (Hstep : GamePage.step l pg (GamePage.Script e') = pg).
    { destruct pg as [s pl pt]. cbn in *.
      rewrite idle_step; [done..|]. by destruct e'. }
    rewrite Hstep. destruct (IH pg Hinv Hg Hev) as (? & ? & Hs).
    split_and!; [done|done|]. cbn. by apply Hs.
  - assert (Hscr : GamePage.script
                     (GamePage.step l pg (GamePage.ContainerMouseMove lft tp))
                   = GamePage.script pg) by apply page_step_script.
    destruct (IH (GamePage.step l pg (GamePage.ContainerMouseMove lft tp)))
      as (Hs & Hc & _); [by rewrite Hscr..|done|].
    rewrite Hscr in Hs, Hc. split_and!; [done| |done].
    intros Hflag. rewrite Hc by done. cbn. unfold GamePage.movePopup.
    by rewrite Hflag.
Qed.

End GameIdle.

(** X13. Once a session has ended (or before the first one starts)
    the game is inert until the start button is clicked.  In a reachable
    state of the page with no game running, and through any events other
    than a click on the start button: the state of the script (variables,
    popup text and display, score and time displays, cues, intervals)
    does not change; timer events and the viewer's pointer events change
    nothing at all; and a [mousemove] of the container changes nothing
    but the position of the popup, and nothing at all when the inside
    flag is clear. *)
Theorem idle_until_start_clicked (mocList : list Game.Item)
    (page : Game.State) (lft tp : string) (evs evs' : list GamePage.Event) :
  let pg := GamePage.run mocList (GamePage.initial page lft tp) evs in
  Game.gameStarted (GamePage.script pg) = false →
  forallb (λ e, negb (GamePage.is_click e)) evs' = true →
  GamePage.script (GamePage.run mocList pg evs') = GamePage.script pg
  ∧ (Game.cursorInMOC (GamePage.script pg) = false →
     GamePage.run mocList pg evs' = pg)
  ∧ (forallb GamePage.is_script evs' = true →
     GamePage.run mocList pg evs' = pg).
Proof.
  intros pg Hg Hev. apply idle_page_run; try done.
  apply page_run_inv, initial_inv.
Qed.

Lemma idle_until_start_clicked_witness :
  GamePage.script
    (GamePage.run [Fixtures.decoy; Fixtures.target]
       (GamePage.run [Fixtures.decoy; Fixtures.target]
          (GamePage.initial Fixtures.game_page "0px" "0px")
          [GamePage.Script Game.ClickStart;
           GamePage.Script (Game.MouseMove (Some Fixtures.in_target))])
       [GamePage.Script Game.Tick;
        GamePage.ContainerMouseMove "17px" "23px";
        GamePage.Script (Game.MouseMove (Some Fixtures.outside))]) =
  GamePage.script
    (GamePage.run [Fixtures.decoy; Fixtures.target]
       (GamePage.initial Fixtures.game_page "0px" "0px")
       [GamePage.Script Game.ClickStart;
        GamePage.Script (Game.MouseMove (Some Fixtures.in_target))]).
Proof.
  apply (idle_until_start_clicked [Fixtures.decoy; Fixtures.target]
           Fixtures.game_page "0px" "0px"
           [GamePage.Script Game.ClickStart;
            GamePage.Script (Game.MouseMove (Some Fixtures.in_target))]);
    reflexivity.
Defined.

(** X14. The time-up message always reports a final score of 0: in a
    reachable state, when a timer event ends the running session, the
    status line reads "Time's up! Final score: 0", because the only way
    to score also ends the session. *)
Theorem time_up_reports_zero (mocList : list Game.Item) (page : Game.State)
    (evs : list Game.Event) :
  let s := Game.run mocList (Game.initial page) evs in
  Game.gameStarted s = true →
  Game.gameStarted (Game.step mocList s Game.Tick) = false →
  Game.gameStatusDisplay_textContent (Game.step mocList s Game.Tick) =
    "Time's up! Final score: 0".
Proof.
  intros s Hg.
  destruct (run_session_inv mocList evs (Game.initial page)
              (initial_session_inv page)) as (Htm & [Hrun _] & _).
  fold s in Htm, Hrun. clearbody s.
  assert (Hstep : Game.step mocList s Game.Tick = Game.timerCallback s).
  { unfold timer_inv in Htm. rewrite Hg in Htm.
    destruct Htm as (id & _ & Hi). cbn. by rewrite Hi. }
  rewrite Hstep.
  destruct (timerCallback_cases s) as (_ & _ & Hg' & Hmsg).
  rewrite Hg', Hmsg, (Hrun Hg), Hg.
  by destruct (Z.leb (Game.timeLeft s - 1) 0).
Qed.

Lemma time_up_reports_zero_witness :
  Game.gameStatusDisplay_textContent
    (Game.step [Fixtures.decoy; Fixtures.target]
       (Game.run [Fixtures.decoy; Fixtures.target] Fixtures.game_page
          (Game.ClickStart :: repeat Game.Tick 29))
       Game.Tick) =
  "Time's up! Final score: 0".
Proof.
  apply (time_up_reports_zero [Fixtures.decoy; Fixtures.target]
           Fixtures.game_page (Game.ClickStart :: repeat Game.Tick 29));
    reflexivity.
Defined.

Section GameFlag.

Import Game.

Implicit Types (s : State) (p : Position) (item : Item) (l : list Item).

(** Either no region contains the pointer, or there is a first one. *)
Lemma first_match_split p l :
  Forall (λ it, inside p it = false) l
  ∨ ∃ l1 item l2, l = l1 ++ item :: l2
      ∧ Forall (λ it, inside p it = false) l1 ∧ inside p item = true.
Proof.
  induction l as [|item l IH]; [by left|].
  destruct (inside p item) eqn:Hi.
  - right. exists [], item, l. by split_and!.
  - destruct IH as [Hall|(l1 & it & l2 & -> & Hl1 & Hit)].
    + left. by constructor.
    + right. exists (item :: l1), it, l2. split_and!; [done| |done].
      by constructor.
Qed.

Lemma existsb_outside p l :
  Forall (λ it, inside p it = false) l ↔ existsb (inside p) l = false.
Proof.
  induction l as [|item l IH]; cbn; [by split|].
  rewrite orb_false_iff, <- IH. split.
  - by inversion 1.
  - intros [? ?]. by constructor.
Qed.

(** With the inside flag set, the loop only computes [found]. *)
Lemma forEach_flag_set p l : ∀ found s,
  cursorInMOC s = true →
  fold_left (forEach_body p) l (found, s) =
    (found || existsb (inside p) l, s).
Proof.
  induction l as [|item l IH]; intros found s Hc.
  { cbn. by rewrite orb_false_r. }
  cbn [fold_left existsb]. unfold forEach_body at 2, inside at 1.
  rewrite Hc, !andb_false_r.
  destruct (contains (moc item) (ra p) (dec p)) eqn:Hi.
  - rewrite set_cursorInMOC_id by done. rewrite IH by done.
    by rewrite orb_true_r.
  - rewrite IH by done. by rewrite orb_false_l.
Qed.

Lemma forEach_body_inside_flag p found s item :
  inside p item = true →
  cursorInMOC (forEach_body p (found, s) item).2 = true.
Proof.
  unfold inside, forEach_body. intros ->. reflexivity.
Qed.

Lemma mouseMove_flag l p s :
  gameStarted s = true →
  cursorInMOC (mouseMove l (Some p) s) = existsb (inside p) l.
Proof.
  intros Hg. destruct (first_match_split p l)
    as [Hout|(l1 & item & l2 & -> & Hl1 & Hit)].
  - rewrite (proj1 (existsb_outside p l) Hout). unfold mouseMove.
    rewrite Hg. cbn [negb]. rewrite forEach_outside by done. cbn [negb andb].
    by destruct (cursorInMOC s) eqn:Hc.
  - rewrite mouseMove_first_match by done.
    rewrite forEach_body_inside_flag by done.
    rewrite existsb_app. cbn [existsb]. rewrite Hit.
    by rewrite orb_true_l, orb_true_r.
Qed.

(** A handler call in a state whose flag already tells where the pointer
    is changes nothing. *)
Lemma mouseMove_settled l p s :
  cursorInMOC s = existsb (inside p) l → mouseMove l (Some p) s = s.
Proof.
  intros Hc. unfold mouseMove. destruct (gameStarted s); [|reflexivity].
  cbn [negb]. destruct (cursorInMOC s) eqn:Hf.
  - rewrite forEach_flag_set by done. rewrite <- Hc. reflexivity.
  - rewrite forEach_outside by (by apply existsb_outside).
    by rewrite Hf.
Qed.

(** The cues requested by one handler call. *)
Lemma forEach_body_played p found s item :
  played (forEach_body p (found, s) item).2 = played s
  ∨ ∃ c, played (forEach_body p (found, s) item).2 = c :: played s.
Proof.
  unfold forEach_body.
  destruct (contains (moc item) (ra p) (dec p)); [|by left]. cbn [snd].
  destruct s as [c g sc tl ti pt pd sd tc te ct cd gs bd pl iv ni].
  destruct (truthy (isTarget item)), c; cbn [andb negb cursorInMOC];
    unfold endGame, clearInterval, play; state_simpl.
  1, 3: by left.
  - right. exists SuccessSound. by destruct ti.
  - right. by exists ErrorSound.
Qed.

Lemma mouseMove_played l pos s :
  played (mouseMove l pos s) = played s
  ∨ ∃ c, played (mouseMove l pos s) = c :: played s.
Proof.
  destruct pos as [p|]; [|by left].
  destruct (gameStarted s) eqn:Hg;
    [|left; by rewrite mouseMove_not_started].
  destruct (first_match_split p l)
    as [Hout|(l1 & item & l2 & -> & Hl1 & Hit)].
  - left. unfold mouseMove. rewrite Hg. cbn [negb].
    rewrite forEach_outside by done.
    by destruct (negb false && cursorInMOC s).
  - rewrite mouseMove_first_match by done. apply forEach_body_played.
Qed.

End GameFlag.

(** X15. While a game is running, after a pointer event with a
    position the flag [cursorInMOC] says whether that position lies in at
    least one region of the list, whatever the flag was before and even
    when the event ends the session. *)
Theorem game_flag_tracks_regions (mocList : list Game.Item) (p : Position)
    (s : Game.State) :
  Game.gameStarted s = true →
  Game.cursorInMOC (Game.mouseMove mocList (Some p) s) =
  existsb (inside p) mocList.
Proof. apply mouseMove_flag. Qed.

Lemma game_flag_tracks_regions_witness :
  Game.cursorInMOC
    (Game.mouseMove [Fixtures.decoy; Fixtures.target] (Some Fixtures.in_target)
       (Game.startGame Fixtures.game_page)) = true.
Proof.
  apply (game_flag_tracks_regions [Fixtures.decoy; Fixtures.target]
           Fixtures.in_target (Game.startGame Fixtures.game_page)).
  reflexivity.
Defined.

(** X16. The game handler reacts to transitions only: a second event at
    the same position changes nothing, so staying inside a region neither
    repeats its cue nor scores again. *)
Theorem game_mouseMove_idempotent (mocList : list Game.Item)
    (pos : option Position) (s : Game.State) :
  Game.mouseMove mocList pos (Game.mouseMove mocList pos s) =
  Game.mouseMove mocList pos s.
Proof.
  destruct pos as [p|]; [|reflexivity].
  destruct (Game.gameStarted s) eqn:Hg.
  - apply mouseMove_settled. by apply mouseMove_flag.
  - by rewrite !(mouseMove_not_started _ _ s) by done.
Qed.

(** X19. One event requests at most one cue: a pointer event adds
    nothing or exactly one cue to the log, also when several regions
    contain the pointer, and timer events and clicks on the start button
    add none. *)
Theorem at_most_one_cue_per_event (mocList : list Game.Item) (s : Game.State)
    (e : Game.Event) :
  match e with
  | Game.MouseMove _ =>
      Game.played (Game.step mocList s e) = Game.played s
      ∨ ∃ c : Game.Sound,
          Game.played (Game.step mocList s e) = c :: Game.played s
  | Game.Tick | Game.ClickStart =>
      Game.played (Game.step mocList s e) = Game.played s
  end.
Proof.
  destruct e as [|pos|]; cbn.
  - destruct (Game.intervals s); [reflexivity|].
    destruct s as [c g sc tl ti pt pd sd tc te ct cd gs bd pl iv ni].
    unfold Game.timerCallback, Game.endGame, Game.clearInterval. state_simpl.
    destruct (Z.leb (tl - 1) 5); state_simpl;
      destruct (Z.leb (tl - 1) 0); state_simpl; try reflexivity;
      by destruct ti.
  - apply mouseMove_played.
  - unfold Game.startGame, Game.setInterval.
    by destruct (Game.gameStarted s).
Qed.

Section GameDisplay.

Import Game.

Implicit Types (s : State) (p : Position) (item : Item) (l : list Item).

(** What the page shows, in terms of the variables of the script. *)
Definition display_inv s : Prop :=
  timeElement_textContent s = pretty (timeLeft s)
  ∧ scoreDisplay_textContent s = "Score: " +:+ pretty (score s)
  ∧ countdownDisplay_display s =
      (if gameStarted s && Z.leb (timeLeft s) 5 then "block" else "none")
  ∧ (gameStarted s = true → Z.leb (timeLeft s) 5 = true →
     countdownDisplay_textContent s = pretty (timeLeft s))
  ∧ timerDisplay_color s = (if Z.leb (timeLeft s) 5 then "" else "white")
  ∧ startGameButton_disabled s = gameStarted s.

Lemma startGame_display s : gameStarted s = false → display_inv (startGame s).
Proof.
  destruct s as [c g sc tl ti pt pd sd tc te ct cd gs bd pl iv ni].
  cbn [gameStarted]. intros ->.
  unfold startGame, setInterval, display_inv. state_simpl.
  split_and!; try reflexivity. intros _ Hle. discriminate Hle.
Qed.

Lemma timerCallback_display s :
  gameStarted s = true → display_inv s → display_inv (timerCallback s).
Proof.
  destruct s as [c g sc tl ti pt pd sd tc te ct cd gs bd pl iv ni].
  unfold display_inv. state_simpl. intros -> (_ & Hsd & _ & _ & _ & Hbd).
  unfold timerCallback. state_simpl.
  destruct (Z.leb (tl - 1) 5) eqn:H5; state_simpl;
    destruct (Z.leb (tl - 1) 0) eqn:H0; state_simpl;
    unfold endGame, clearInterval; state_simpl;
    try (destruct ti; state_simpl); rewrite ?H5; cbn [andb];
    split_and!; try done; intros; congruence.
Qed.

Lemma forEach_body_display p found s item :
  display_inv s → display_inv (forEach_body p (found, s) item).2.
Proof.
  unfold forEach_body.
  destruct (contains (moc item) (ra p) (dec p)); [|done]. cbn [snd].
  destruct s as [c g sc tl ti pt pd sd tc te ct cd gs bd pl iv ni].
  unfold display_inv. state_simpl.
  intros (Hte & Hsd & Hcd & Hct & Htc & Hbd).
  destruct (truthy (isTarget item)), c; cbn [andb negb]; state_simpl;
    try (by split_and!).
  unfold endGame, clearInterval, play. state_simpl.
  destruct ti; state_simpl; cbn [andb]; split_and!; try done.
Qed.

Lemma mouseMove_display l pos s : display_inv s → display_inv (mouseMove l pos s).
Proof.
  intros Hinv. destruct pos as [p|]; [|done]. unfold mouseMove.
  destruct (gameStarted s); [|done]. cbn [negb].
  pose proof (forEach_preserves display_inv p (forEach_body_display p)
                l false s Hinv) as Hloop.
  destruct (fold_left (forEach_body p) l (false, s)) as [found s1].
  cbn [snd] in Hloop. destruct (negb found && cursorInMOC s1); [|done].
  destruct s1 as [c g sc tl ti pt pd sd tc te ct cd gs bd pl iv ni].
  unfold display_inv in *. state_simpl. done.
Qed.

Lemma step_display l s e :
  timer_inv s → display_inv s → display_inv (step l s e).
Proof.
  intros Htm Hinv. destruct e as [|pos|]; cbn.
  - destruct (intervals s) eqn:Hi; [done|].
    apply timerCallback_display; [|done]. unfold timer_inv in Htm.
    destruct (gameStarted s); [done|congruence].
  - by apply mouseMove_display.
  - destruct (gameStarted s) eqn:Hg; [|by apply startGame_display].
    unfold startGame. by rewrite Hg.
Qed.

Lemma run_display l evs : ∀ s,
  timer_inv s → display_inv s → display_inv (run l s evs).
Proof.
  unfold run. induction evs as [|e evs IH]; intros s Htm Hinv; [done|].
  cbn [fold_left]. apply IH; [by apply step_inv|by apply step_display].
Qed.

(** Without a click on the start button, a running game has counted one
    second per timer event since it was started. *)
Lemma click_free_countdown l (evs : list Event) : ∀ s (n : nat),
  timer_inv s →
  (gameStarted s = true → timeLeft s = (30 - Z.of_nat n)%Z) →
  forallb (λ e, negb (is_click e)) evs = true →
  gameStarted (run l s evs) = true →
  timeLeft (run l s evs) = (30 - Z.of_nat (n + ticks evs))%Z.
Proof.
  induction evs as [|e evs IH]; intros s n Htm Hn Hev Hg.
  { cbn in *. rewrite Hn by done. f_equal. lia. }
  cbn in Hev. apply andb_prop in Hev as [He Hev].
  change (run l s (e :: evs)) with (run l (step l s e) evs) in *.
  destruct e as [|pos|]; [| |done].
  - change (ticks (Tick :: evs)) with (S (ticks evs)).
    replace (n + S (ticks evs))%nat with (S n + ticks evs)%nat by lia.
    apply IH; [by apply step_inv| |done|done].
    cbn. destruct (intervals s) eqn:Hi.
    + unfold timer_inv in Htm. intros Hg'. rewrite Hg' in Htm.
      destruct Htm as (? & _ & ?). congruence.
    + destruct (timerCallback_cases s) as (Ht & _ & Hg' & _).
      rewrite Ht, Hg'. destruct (Z.leb (timeLeft s - 1) 0); [done|].
      intros Hrun. rewrite Hn by done. lia.
  - change (ticks (MouseMove pos :: evs)) with (ticks evs).
    apply IH; [by apply step_inv| |done|done].
    cbn. destruct (mouseMove_frame l pos s) as [Ht Hfr].
    intros Hrun. destruct (Hfr Hrun) as [Hg' _]. rewrite Ht. by apply Hn.
Qed.

End GameDisplay.

(** X17. Once the start button has been clicked, the page always shows
    the variables of the script: the time element and the score line
    show [timeLeft] and [score]; the large countdown is displayed exactly
    while a game runs with at most 5 seconds left, and then shows
    [timeLeft]; the timer colour is cleared exactly when at most 5 seconds
    are left; and the start button is disabled exactly while a game
    runs. *)
Theorem page_shows_session_state (mocList : list Game.Item)
    (page : Game.State) (evs : list Game.Event) :
  let s := Game.run mocList (Game.initial page) (Game.ClickStart :: evs) in
  Game.timeElement_textContent s = pretty (Game.timeLeft s)
  ∧ Game.scoreDisplay_textContent s = "Score: " +:+ pretty (Game.score s)
  ∧ Game.countdownDisplay_display s =
      (if Game.gameStarted s && Z.leb (Game.timeLeft s) 5 then "block"
       else "none")
  ∧ (Game.gameStarted s = true → Z.leb (Game.timeLeft s) 5 = true →
     Game.countdownDisplay_textContent s = pretty (Game.timeLeft s))
  ∧ Game.timerDisplay_color s =
      (if Z.leb (Game.timeLeft s) 5 then "" else "white")
  ∧ Game.startGameButton_disabled s = Game.gameStarted s.
Proof.
  intros s. subst s.
  change (Game.run mocList (Game.initial page) (Game.ClickStart :: evs))
    with (Game.run mocList (Game.startGame (Game.initial page)) evs).
  apply run_display.
  - apply startGame_inv, initial_inv.
  - by apply startGame_display.
Qed.

(** X18. A session cannot outlast its 30 seconds: after the click that
    starts the first game, any sequence of timer and pointer events that
    contains at least 30 timer events leaves no game running, whatever
    the pointer did in between. *)
Theorem session_over_after_30_ticks (mocList : list Game.Item)
    (page : Game.State) (evs : list Game.Event) :
  forallb (λ e, negb (is_click e)) evs = true →
  (30 ≤ Game.ticks evs)%nat →
  Game.gameStarted
    (Game.run mocList (Game.initial page) (Game.ClickStart :: evs)) = false.
Proof.
  intros Hev Hticks.
  change (Game.run mocList (Game.initial page) (Game.ClickStart :: evs))
    with (Game.run mocList (Game.startGame (Game.initial page)) evs).
  set (s0 := Game.startGame (Game.initial page)).
  assert (Hinv : session_inv s0)
    by apply startGame_session_inv, initial_session_inv.
  destruct (run_session_inv mocList evs s0 Hinv) as (_ & _ & [_ Hpos]).
  destruct (Game.gameStarted (Game.run mocList s0 evs)) eqn:Hg; [|reflexivity].
  specialize (Hpos eq_refl).
  pose proof (click_free_countdown mocList evs s0 0 (proj1 Hinv)
                (λ _, eq_refl) Hev Hg) as Ht.
  lia.
Qed.

Lemma session_over_after_30_ticks_witness :
  Game.gameStarted
    (Game.run [Fixtures.decoy; Fixtures.target] Fixtures.game_page
       (Game.ClickStart
        :: Game.MouseMove (Some Fixtures.in_decoy) :: repeat Game.Tick 30)) =
  false.
Proof.
  apply (session_over_after_30_ticks [Fixtures.decoy; Fixtures.target]
           Fixtures.game_page
           (Game.MouseMove (Some Fixtures.in_decoy) :: repeat Game.Tick 30)).
  - reflexivity.
  - vm_compute. lia.
Defined.

Section GameFrames.

Import Game.

Implicit Types (s r : State) (p : Position) (item : Item) (l : list Item).

(** The part of the state that belongs to the countdown. *)
Definition timer_untouched s r : Prop :=
  timeLeft r = timeLeft s
  ∧ timeElement_textContent r = timeElement_textContent s
  ∧ timerDisplay_color r = timerDisplay_color s
  ∧ countdownDisplay_textContent r = countdownDisplay_textContent s
  ∧ timerInterval r = timerInterval s
  ∧ next_interval r = next_interval s
  ∧ (gameStarted r = true → gameStarted s = true).

Lemma forEach_body_timer_untouched s p found r item :
  timer_untouched s r → timer_untouched s (forEach_body p (found, r) item).2.
Proof.
  unfold forEach_body.
  destruct (contains (moc item) (ra p) (dec p)); [|done]. cbn [snd].
  destruct r as [c g sc tl ti pt pd sd tc te ct cd gs bd pl iv ni].
  unfold timer_untouched. state_simpl.
  intros (? & ? & ? & ? & ? & ? & ?).
  destruct (truthy (isTarget item)), c; cbn [andb negb]; state_simpl;
    try (by split_and!).
  unfold endGame, clearInterval, play. state_simpl.
  destruct ti; state_simpl; by split_and!.
Qed.

Lemma mouseMove_timer_untouched l pos s : timer_untouched s (mouseMove l pos s).
Proof.
  assert (Hrefl : timer_untouched s s) by (by unfold timer_untouched).
  destruct pos as [p|]; [|done]. unfold mouseMove.
  destruct (gameStarted s); [|done]. cbn [negb].
  pose proof (forEach_preserves (timer_untouched s) p
                (forEach_body_timer_untouched s p) l false s Hrefl) as Hloop.
  destruct (fold_left (forEach_body p) l (false, s)) as [found s1].
  cbn [snd] in Hloop. destruct (negb found && cursorInMOC s1); [|done].
  destruct s1 as [c g sc tl ti pt pd sd tc te ct cd gs bd pl iv ni].
  unfold timer_untouched in *. state_simpl. done.
Qed.

(** The part of the state that belongs to the pointer. *)
Definition pointer_untouched s r : Prop :=
  cursorInMOC r = cursorInMOC s
  ∧ popup_textContent r = popup_textContent s
  ∧ popup_display r = popup_display s
  ∧ played r = played s.

Lemma timerCallback_pointer_untouched s : pointer_untouched s (timerCallback s).
Proof.
  destruct s as [c g sc tl ti pt pd sd tc te ct cd gs bd pl iv ni].
  unfold pointer_untouched, timerCallback. state_simpl.
  destruct (Z.leb (tl - 1) 5); state_simpl;
    destruct (Z.leb (tl - 1) 0); state_simpl;
    unfold endGame, clearInterval; state_simpl;
    try (destruct ti; state_simpl); by split_and!.
Qed.

Lemma startGame_pointer_untouched s : pointer_untouched s (startGame s).
Proof.
  destruct s as [c g sc tl ti pt pd sd tc te ct cd gs bd pl iv ni].
  unfold pointer_untouched, startGame, setInterval. state_simpl.
  by destruct g.
Qed.

End GameFrames.

(** X20. The handlers keep to their own part of the state.  The
    pointer handler never changes the seconds remaining, what the time
    element and the large countdown show, the timer colour or the
    interval handle, and it never starts a game.  The timer callback and
    the start button never change the inside flag, the popup or the log
    of cues. *)
Theorem handlers_keep_to_their_state (mocList : list Game.Item)
    (s : Game.State) (e : Game.Event) :
  let s' := Game.step mocList s e in
  match e with
  | Game.MouseMove _ =>
      Game.timeLeft s' = Game.timeLeft s
      ∧ Game.timeElement_textContent s' = Game.timeElement_textContent s
      ∧ Game.timerDisplay_color s' = Game.timerDisplay_color s
      ∧ Game.countdownDisplay_textContent s' =
          Game.countdownDisplay_textContent s
      ∧ Game.timerInterval s' = Game.timerInterval s
      ∧ Game.next_interval s' = Game.next_interval s
      ∧ (Game.gameStarted s' = true → Game.gameStarted s = true)
  | Game.Tick | Game.ClickStart =>
      Game.cursorInMOC s' = Game.cursorInMOC s
      ∧ Game.popup_textContent s' = Game.popup_textContent s
      ∧ Game.popup_display s' = Game.popup_display s
      ∧ Game.played s' = Game.played s
  end.
Proof.
  destruct e as [|pos|]; cbn.
  - destruct (Game.intervals s); [done|].
    apply timerCallback_pointer_untouched.
  - apply mouseMove_timer_untouched.
  - apply startGame_pointer_untouched.
Qed.

Section GamePopup.

Import Game.

Implicit Types (s r : State) (p : Position) (item : Item) (l : list Item).

(** The popup is displayed, with the text of a region of the list,
    exactly while the inside flag is set. *)
Definition game_popup_inv l s : Prop :=
  if cursorInMOC s
  then popup_display s = "block"
       ∧ ∃ item, item ∈ l ∧ popup_textContent s = text item
  else popup_display s ≠ "block".

Lemma game_popup_inv_ext l s r :
  pointer_untouched s r → game_popup_inv l s → game_popup_inv l r.
Proof.
  unfold game_popup_inv. intros (-> & -> & -> & _). done.
Qed.

Lemma forEach_body_popup l p found s item :
  item ∈ l → game_popup_inv l s →
  game_popup_inv l (forEach_body p (found, s) item).2.
Proof.
  intros Hin. unfold forEach_body.
  destruct (contains (moc item) (ra p) (dec p)); [|done]. cbn [snd].
  destruct s as [c g sc tl ti pt pd sd tc te ct cd gs bd pl iv ni].
  unfold game_popup_inv. state_simpl. intros Hinv.
  destruct (truthy (isTarget item)), c; cbn [andb negb]; state_simpl;
    try done; try (split; [reflexivity|by exists item]).
  unfold endGame, clearInterval, play. state_simpl.
  destruct ti; state_simpl; (split; [reflexivity|by exists item]).
Qed.

Lemma forEach_popup l p : ∀ l' found s,
  (∀ item, item ∈ l' → item ∈ l) → game_popup_inv l s →
  game_popup_inv l (fold_left (forEach_body p) l' (found, s)).2.
Proof.
  induction l' as [|item l' IH]; intros found s Hsub Hinv; [done|].
  cbn [fold_left].
  assert (Hstep : game_popup_inv l (forEach_body p (found, s) item).2).
  { apply forEach_body_popup; [|done]. apply Hsub. by left. }
  destruct (forEach_body p (found, s) item) as [found' s'].
  apply IH; [|done]. intros it Hit. apply Hsub. by right.
Qed.

Lemma step_popup l s e : game_popup_inv l s → game_popup_inv l (step l s e).
Proof.
  intros Hinv. destruct e as [|pos|]; cbn.
  - destruct (intervals s); [done|].
    apply (game_popup_inv_ext l s); [apply timerCallback_pointer_untouched|done].
  - destruct pos as [p|]; [|done]. unfold mouseMove.
    destruct (gameStarted s); [|done]. cbn [negb].
    pose proof (forEach_popup l p l false s (λ _ H, H) Hinv) as Hloop.
    destruct (fold_left (forEach_body p) l (false, s)) as [found s1].
    cbn [snd] in Hloop. destruct (negb found && cursorInMOC s1); [|done].
    unfold game_popup_inv. state_simpl. discriminate.
  - apply (game_popup_inv_ext l s); [apply startGame_pointer_untouched|done].
Qed.

Lemma run_popup l evs : ∀ s, game_popup_inv l s → game_popup_inv l (run l s evs).
Proof.
  unfold run. induction evs as [|e evs IH]; intros s Hinv; [done|].
  cbn [fold_left]. by apply IH, step_popup.
Qed.

End GamePopup.

(** X21. In the game, on a page whose popup is not displayed at load
    time, the popup is displayed (style 'block') exactly when
    [cursorInMOC] is true, in every reachable state; and while it is
    displayed it shows the text of one of the regions of the list. *)
Theorem game_popup_shown_iff_inside (mocList : list Game.Item)
    (page : Game.State) (evs : list Game.Event) :
  Game.popup_display page ≠ "block" →
  let s := Game.run mocList (Game.initial page) evs in
  (Game.cursorInMOC s = true ↔ Game.popup_display s = "block")
  ∧ (Game.cursorInMOC s = true →
     ∃ item, item ∈ mocList ∧ Game.popup_textContent s = Game.text item).
Proof.
  intros Hd s.
  assert (Hinv : game_popup_inv mocList s).
  { apply run_popup. unfold game_popup_inv, Game.initial. by state_simpl. }
  clearbody s. unfold game_popup_inv in Hinv.
  destruct (Game.cursorInMOC s); split; try done; tauto.
Qed.

Lemma game_popup_shown_iff_inside_witness :
  Game.cursorInMOC
    (Game.run [Fixtures.decoy; Fixtures.target] Fixtures.game_page
       [Game.ClickStart; Game.MouseMove (Some Fixtures.in_decoy)]) = true
  ↔ Game.popup_display
      (Game.run [Fixtures.decoy; Fixtures.target] Fixtures.game_page
         [Game.ClickStart; Game.MouseMove (Some Fixtures.in_decoy)]) =
    "block".
Proof.
  apply (game_popup_shown_iff_inside [Fixtures.decoy; Fixtures.target]
           Fixtures.game_page
           [Game.ClickStart; Game.MouseMove (Some Fixtures.in_decoy)]).
  discriminate.
Defined.

Lemma score_is_zero_or_ten_witness :
  Game.score
    (Game.run [Fixtures.decoy; Fixtures.target] Fixtures.game_page
       [Game.ClickStart; Game.MouseMove (Some Fixtures.in_decoy)]) = 0.
Proof.
  apply (proj2 (score_is_zero_or_ten [Fixtures.decoy; Fixtures.target]
                  Fixtures.game_page
                  [Game.ClickStart; Game.MouseMove (Some Fixtures.in_decoy)])).
  reflexivity.
Defined.

Lemma timeLeft_within_bounds_witness :
  (1 ≤ Game.timeLeft
         (Game.run [Fixtures.decoy; Fixtures.target] Fixtures.game_page
            [Game.ClickStart; Game.Tick; Game.Tick]))%Z.
Proof.
  apply (proj2 (timeLeft_within_bounds [Fixtures.decoy; Fixtures.target]
                  Fixtures.game_page [Game.ClickStart; Game.Tick; Game.Tick])).
  reflexivity.
Defined.

Lemma page_shows_session_state_witness :
  Game.countdownDisplay_textContent
    (Game.run [Fixtures.decoy; Fixtures.target] Fixtures.game_page
       (Game.ClickStart :: repeat Game.Tick 26)) =
  pretty
    (Game.timeLeft
       (Game.run [Fixtures.decoy; Fixtures.target] Fixtures.game_page
          (Game.ClickStart :: repeat Game.Tick 26))).
Proof.
  apply (page_shows_session_state [Fixtures.decoy; Fixtures.target]
           Fixtures.game_page (repeat Game.Tick 26)); reflexivity.
Defined.

Lemma handlers_keep_to_their_state_witness :
  Game.gameStarted (Game.startGame Fixtures.game_page) = true.
Proof.
  apply (handlers_keep_to_their_state [Fixtures.decoy; Fixtures.target]
           (Game.startGame Fixtures.game_page)
           (Game.MouseMove (Some Fixtures.in_decoy))).
  reflexivity.
Defined.
